(** * SpringHall UI: parameter binding, preset stores and the blend surface

    A shallow embedding of the parameter-control and preset-persistence
    core of [springhall_ui.py], followed by the properties of its
    specification.

    Conventions of the embedding:
    - Qt objects ([QSlider], [QDial], [QLabel]) live in an object store and
      are named by identifiers; closures connected to signals are values of
      the type [handler];
    - Python [dict] objects that the program shares or copies (the three
      module-level modulation value maps and their copies) live in a heap of
      dict objects, so that aliasing is visible;
    - the preset stores are insertion-ordered dictionaries ([pydict]);
    - Python numbers stored in presets are exact rationals ([Q]); on the
      slider domain 0..1000 the float operations of the source
      ([v / 10], [int(x * 10)]) agree with them.  The coordinates of the
      blend surface are idealised as real numbers;
    - modal dialogs are inputs: an operation receives what the user
      answered;
    - writing a file succeeds. *)

From Stdlib Require Import ZArith QArith Qround Lia.
From Stdlib Require Floats.
From Stdlib Require Import DecimalString Ascii.
From stdpp Require Import gmap strings list fin_maps.

Set Default Proof Using "Type".

Local Open Scope string_scope.
Local Open Scope list_scope.
Local Open Scope Z_scope.

(** ** Insertion-ordered dictionaries *)

Module PyDict.

Abbreviation pydict V := (list (string * V)) (only parsing).

(** [d.get(k)] *)
Fixpoint get {V} (k : string) (d : pydict V) : option V :=
  match d with
  | [] => None
  | (k', v) :: d' => if decide (k' = k) then Some v else get k d'
  end.

(** [k in d] *)
Definition contains {V} (k : string) (d : pydict V) : bool :=
  bool_decide (is_Some (get k d)).

(** [d[k] = v]: an existing key keeps its place, a new key goes last. *)
Fixpoint set {V} (k : string) (v : V) (d : pydict V) : pydict V :=
  match d with
  | [] => [(k, v)]
  | (k', v') :: d' =>
      if decide (k' = k) then (k, v) :: d' else (k', v') :: set k v d'
  end.

(** The dictionary without the entry of [k]. *)
Fixpoint remove {V} (k : string) (d : pydict V) : pydict V :=
  match d with
  | [] => []
  | (k', v') :: d' =>
      if decide (k' = k) then d' else (k', v') :: remove k d'
  end.

(** [d.pop(k)]: [None] stands for the [KeyError] of an absent key. *)
Definition pop {V} (k : string) (d : pydict V) : option (V * pydict V) :=
  match get k d with
  | Some v => Some (v, remove k d)
  | None => None
  end.

Definition keys {V} (d : pydict V) : list string := d.*1.
Definition values {V} (d : pydict V) : list V := d.*2.

(** Python keeps keys unique; every operation above preserves it. *)
Definition wf {V} (d : pydict V) : Prop := NoDup (keys d).

End PyDict.

Abbreviation pydict V := (list (string * V)) (only parsing).

(** ** Strings and numbers *)

(** [str.isspace] on ASCII characters. *)
Definition isspace (c : ascii) : bool :=
  let n := Ascii.N_of_ascii c in
  ((9 <=? n) && (n <=? 13) || (28 <=? n) && (n <=? 32))%N.

Fixpoint lstrip (s : string) : string :=
  match s with
  | String c s' => if isspace c then lstrip s' else s
  | EmptyString => EmptyString
  end.

Definition rstrip (s : string) : string := String.rev (lstrip (String.rev s)).

(** [s.strip()] *)
Definition strip (s : string) : string := rstrip (lstrip s).

Definition upper_char (c : ascii) : ascii :=
  let n := Ascii.N_of_ascii c in
  if ((97 <=? n) && (n <=? 122))%N then Ascii.ascii_of_N (n - 32) else c.

(** [s.upper()] on ASCII letters. *)
Fixpoint upper (s : string) : string :=
  match s with
  | String c s' => String (upper_char c) (upper s')
  | EmptyString => EmptyString
  end.

(** [str(z)] *)
Definition str (z : Z) : string := NilZero.string_of_int (Z.to_int z).

(** [f"{v:02}"] for an int [v] *)
Definition fmt_02 (v : Z) : string :=
  let s := str v in
  if (String.length s <? 2)%nat then "0" +:+ s else s.

(** [f"{v / 10:.1f}"] for an int [v] *)
Definition fmt_tenths (v : Z) : string :=
  (if v <? 0 then "-" else "") +:+ str (Z.abs v / 10) +:+ "." +:+ str (Z.abs v mod 10).

(** [int(x)] truncates towards zero. *)
Definition py_int (x : Q) : Z := Qnum x ÷ Z.pos (Qden x).

(** [round(x)]: the nearest integer, ties to the even one. *)
Definition py_round (x : Q) : Z :=
  let f := Qfloor x in
  match ((x - inject_Z f) ?= 1 # 2)%Q with
  | Lt => f
  | Gt => f + 1
  | Eq => if Z.even f then f else f + 1
  end.

(** [f"{x}"] for the numbers of [SLIDERS]: an int, or a float with one
    decimal. *)
Definition fmt_number (x : Q) : string :=
  if decide (Qden x = 1%positive) then str (Qnum x) else fmt_tenths (py_int (x * 10)).

(** ** Qt sliders and dials *)

Module Qt.

(** The part of [QAbstractSlider] the program relies on. *)
Record QAbstractSlider := {
  value : Z;
  minimum : Z;
  maximum : Z;
  signalsBlocked : bool
}.

(** Qt's [qBound(min, v, max)], applied by [setValue]. *)
Definition qBound (lo v hi : Z) : Z := Z.max lo (Z.min hi v).

Definition with_value (v : Z) (q : QAbstractSlider) : QAbstractSlider :=
  {| value := v; minimum := minimum q; maximum := maximum q;
     signalsBlocked := signalsBlocked q |}.

Definition with_blocked (b : bool) (q : QAbstractSlider) : QAbstractSlider :=
  {| value := value q; minimum := minimum q; maximum := maximum q;
     signalsBlocked := b |}.

(** A fresh widget after [setRange(lo, hi)], showing [lo]. *)
Definition make (lo hi : Z) : QAbstractSlider :=
  {| value := lo; minimum := lo; maximum := hi; signalsBlocked := false |}.

Inductive signal := valueChanged | sliderMoved.

End Qt.

Abbreviation wid := nat (only parsing).
Abbreviation lid := nat (only parsing).
Abbreviation loc := positive (only parsing).

(** ** Banks, presets and files *)

Inductive bank := Mod | Bic | Ech.

Record per_bank (A : Type) := PerBank { of_mod : A; of_bic : A; of_ech : A }.
Arguments PerBank {A} _ _ _.
Arguments of_mod {A} _.
Arguments of_bic {A} _.
Arguments of_ech {A} _.

Definition bank_get {A} (b : bank) (p : per_bank A) : A :=
  match b with Mod => of_mod p | Bic => of_bic p | Ech => of_ech p end.

Definition bank_set {A} (b : bank) (a : A) (p : per_bank A) : per_bank A :=
  match b with
  | Mod => PerBank a (of_bic p) (of_ech p)
  | Bic => PerBank (of_mod p) a (of_ech p)
  | Ech => PerBank (of_mod p) (of_bic p) a
  end.

Definition bank_map {A B} (f : A → B) (p : per_bank A) : per_bank B :=
  PerBank (f (of_mod p)) (f (of_bic p)) (f (of_ech p)).

(** A main-store preset in memory.  The nested modulation maps are dict
    objects, held by reference. *)
Record preset := Preset {
  position : string;
  values : gmap string Q;
  modulation : option (per_bank loc)
}.

(** The same preset as a JSON document (what [json.dump] writes). *)
Record jpreset := JPreset {
  j_position : string;
  j_values : gmap string Q;
  j_modulation : option (per_bank (gmap string Q))
}.

(** Contents of a file that exists: text that does not parse, or a
    document.  A file that parses is taken to have the shape the program
    itself writes. *)
Inductive file (A : Type) := Malformed | Doc (a : A).
Arguments Malformed {A}.
Arguments Doc {A} _.

Record filesystem := FS {
  preset_file : option (file (pydict jpreset));
  bank_preset_file : per_bank (option (file (pydict (gmap string Q))))
}.

(** ** Signal connections *)

(** The closures the program connects to [valueChanged] and [sliderMoved]. *)
Inductive handler :=
| h_update
    (* RingDial: self.valueChanged.connect(self.update) *)
| h_slider_label (l : lid)
    (* lambda v, l=lbl_val: l.setText(f"{v / 10:.1f}") *)
| h_sync_controls (n : string) (source : string)
    (* lambda v, n=name.upper(): sync_controls(n, v, "slider") *)
| h_knob_to_slider (sl : wid) (key : string)
| h_slider_to_knob (d : wid) (key : string)
| h_lcd (l : lid)
    (* lambda v, l=lcd: l.setText(f"{v:02}"), and custom_knob's update_label *)
| h_value_map (b : bank) (n : string).
    (* lambda val, n=name: bic_value_map.update({n: val}) *)

Record signals := Signals {
  on_valueChanged : list handler;
  on_sliderMoved : list handler
}.

Definition slots (sg : Qt.signal) (c : signals) : list handler :=
  match sg with
  | Qt.valueChanged => on_valueChanged c
  | Qt.sliderMoved => on_sliderMoved c
  end.

(** ** Exceptions and console output *)

Inductive exn :=
| KeyError (k : string)
| JSONDecodeError
| RuntimeError           (* a wrapped Qt object that no longer exists *)
| OverflowError.         (* an int that does not fit the C int of a Qt call *)

Inductive message :=
| msg_loaded (n : nat)       (* "Loaded {n} presets from disk." *)
| msg_read_error (e : exn)   (* "Preset-file read error:", e *)
| msg_written.               (* "Presets written to", path *)

(** ** The state of the program *)

Record world := World {
  (* Qt objects *)
  widgets : gmap wid Qt.QAbstractSlider;
  connections : gmap wid signals;
  labels : gmap lid string;
  (* every programmatic call of setValue, most recent first *)
  trace : list (wid * Z);
  (* what was printed, most recent first *)
  stdout : list message;
  (* module-level globals *)
  slider_widget_map : gmap string wid;
  knob_widget_map : gmap string wid;
  slider_label_map : gmap string lid;
  heap : gmap loc (gmap string Q);
  (* attributes of SpringHallUI *)
  preset_values : gmap string Q;
  presets : pydict preset;
  current_preset_name : string;
  current_preset_position : string;
  slider_widgets : list (string * wid * lid);
  knobs : option (per_bank (pydict wid));
  main_title : lid;
  pos_lbl : lid;
  edit_title : option lid;
  bank_presets : per_bank (pydict (gmap string Q));
  bank_current_preset : per_bank (option string);
  (* the disk *)
  fs : filesystem
}.

(** The three module-level value maps are dict objects created at import. *)
Definition value_map (b : bank) : loc :=
  match b with Mod => 1%positive | Bic => 2%positive | Ech => 3%positive end.
Definition mod_value_map : loc := value_map Mod.
Definition bic_value_map : loc := value_map Bic.
Definition ech_value_map : loc := value_map Ech.

Definition set_widgets (f : gmap wid Qt.QAbstractSlider → gmap wid Qt.QAbstractSlider)
    (σ : world) : world :=
  World (f (widgets σ)) (connections σ) (labels σ) (trace σ) (stdout σ)
    (slider_widget_map σ) (knob_widget_map σ) (slider_label_map σ) (heap σ)
    (preset_values σ) (presets σ) (current_preset_name σ)
    (current_preset_position σ) (slider_widgets σ) (knobs σ) (main_title σ)
    (pos_lbl σ) (edit_title σ) (bank_presets σ) (bank_current_preset σ) (fs σ).

Definition set_connections (f : gmap wid signals → gmap wid signals)
    (σ : world) : world :=
  World (widgets σ) (f (connections σ)) (labels σ) (trace σ) (stdout σ)
    (slider_widget_map σ) (knob_widget_map σ) (slider_label_map σ) (heap σ)
    (preset_values σ) (presets σ) (current_preset_name σ)
    (current_preset_position σ) (slider_widgets σ) (knobs σ) (main_title σ)
    (pos_lbl σ) (edit_title σ) (bank_presets σ) (bank_current_preset σ) (fs σ).

Definition set_labels (f : gmap lid string → gmap lid string)
    (σ : world) : world :=
  World (widgets σ) (connections σ) (f (labels σ)) (trace σ) (stdout σ)
    (slider_widget_map σ) (knob_widget_map σ) (slider_label_map σ) (heap σ)
    (preset_values σ) (presets σ) (current_preset_name σ)
    (current_preset_position σ) (slider_widgets σ) (knobs σ) (main_title σ)
    (pos_lbl σ) (edit_title σ) (bank_presets σ) (bank_current_preset σ) (fs σ).

Definition set_trace (f : list (wid * Z) → list (wid * Z))
    (σ : world) : world :=
  World (widgets σ) (connections σ) (labels σ) (f (trace σ)) (stdout σ)
    (slider_widget_map σ) (knob_widget_map σ) (slider_label_map σ) (heap σ)
    (preset_values σ) (presets σ) (current_preset_name σ)
    (current_preset_position σ) (slider_widgets σ) (knobs σ) (main_title σ)
    (pos_lbl σ) (edit_title σ) (bank_presets σ) (bank_current_preset σ) (fs σ).

Definition set_stdout (f : list message → list message) (σ : world) : world :=
  World (widgets σ) (connections σ) (labels σ) (trace σ) (f (stdout σ))
    (slider_widget_map σ) (knob_widget_map σ) (slider_label_map σ) (heap σ)
    (preset_values σ) (presets σ) (current_preset_name σ)
    (current_preset_position σ) (slider_widgets σ) (knobs σ) (main_title σ)
    (pos_lbl σ) (edit_title σ) (bank_presets σ) (bank_current_preset σ) (fs σ).

Definition set_slider_widget_map (f : gmap string wid → gmap string wid)
    (σ : world) : world :=
  World (widgets σ) (connections σ) (labels σ) (trace σ) (stdout σ)
    (f (slider_widget_map σ)) (knob_widget_map σ) (slider_label_map σ)
    (heap σ) (preset_values σ) (presets σ) (current_preset_name σ)
    (current_preset_position σ) (slider_widgets σ) (knobs σ) (main_title σ)
    (pos_lbl σ) (edit_title σ) (bank_presets σ) (bank_current_preset σ) (fs σ).

Definition set_slider_label_map (f : gmap string lid → gmap string lid)
    (σ : world) : world :=
  World (widgets σ) (connections σ) (labels σ) (trace σ) (stdout σ)
    (slider_widget_map σ) (knob_widget_map σ) (f (slider_label_map σ))
    (heap σ) (preset_values σ) (presets σ) (current_preset_name σ)
    (current_preset_position σ) (slider_widgets σ) (knobs σ) (main_title σ)
    (pos_lbl σ) (edit_title σ) (bank_presets σ) (bank_current_preset σ) (fs σ).

Definition set_heap (f : gmap loc (gmap string Q) → gmap loc (gmap string Q))
    (σ : world) : world :=
  World (widgets σ) (connections σ) (labels σ) (trace σ) (stdout σ)
    (slider_widget_map σ) (knob_widget_map σ) (slider_label_map σ)
    (f (heap σ)) (preset_values σ) (presets σ) (current_preset_name σ)
    (current_preset_position σ) (slider_widgets σ) (knobs σ) (main_title σ)
    (pos_lbl σ) (edit_title σ) (bank_presets σ) (bank_current_preset σ) (fs σ).

Definition set_preset_values (f : gmap string Q → gmap string Q)
    (σ : world) : world :=
  World (widgets σ) (connections σ) (labels σ) (trace σ) (stdout σ)
    (slider_widget_map σ) (knob_widget_map σ) (slider_label_map σ) (heap σ)
    (f (preset_values σ)) (presets σ) (current_preset_name σ)
    (current_preset_position σ) (slider_widgets σ) (knobs σ) (main_title σ)
    (pos_lbl σ) (edit_title σ) (bank_presets σ) (bank_current_preset σ) (fs σ).

Definition set_presets (f : pydict preset → pydict preset)
    (σ : world) : world :=
  World (widgets σ) (connections σ) (labels σ) (trace σ) (stdout σ)
    (slider_widget_map σ) (knob_widget_map σ) (slider_label_map σ) (heap σ)
    (preset_values σ) (f (presets σ)) (current_preset_name σ)
    (current_preset_position σ) (slider_widgets σ) (knobs σ) (main_title σ)
    (pos_lbl σ) (edit_title σ) (bank_presets σ) (bank_current_preset σ) (fs σ).

Definition set_slider_widgets (f : list (string * wid * lid) → list (string * wid * lid))
    (σ : world) : world :=
  World (widgets σ) (connections σ) (labels σ) (trace σ) (stdout σ)
    (slider_widget_map σ) (knob_widget_map σ) (slider_label_map σ) (heap σ)
    (preset_values σ) (presets σ) (current_preset_name σ)
    (current_preset_position σ) (f (slider_widgets σ)) (knobs σ)
    (main_title σ) (pos_lbl σ) (edit_title σ) (bank_presets σ)
    (bank_current_preset σ) (fs σ).

Definition set_knobs (f : option (per_bank (pydict wid)) → option (per_bank (pydict wid)))
    (σ : world) : world :=
  World (widgets σ) (connections σ) (labels σ) (trace σ) (stdout σ)
    (slider_widget_map σ) (knob_widget_map σ) (slider_label_map σ) (heap σ)
    (preset_values σ) (presets σ) (current_preset_name σ)
    (current_preset_position σ) (slider_widgets σ) (f (knobs σ))
    (main_title σ) (pos_lbl σ) (edit_title σ) (bank_presets σ)
    (bank_current_preset σ) (fs σ).

Definition set_edit_title (f : option lid → option lid) (σ : world) : world :=
  World (widgets σ) (connections σ) (labels σ) (trace σ) (stdout σ)
    (slider_widget_map σ) (knob_widget_map σ) (slider_label_map σ) (heap σ)
    (preset_values σ) (presets σ) (current_preset_name σ)
    (current_preset_position σ) (slider_widgets σ) (knobs σ) (main_title σ)
    (pos_lbl σ) (f (edit_title σ)) (bank_presets σ) (bank_current_preset σ)
    (fs σ).

Definition set_bank_presets (f : per_bank (pydict (gmap string Q)) → per_bank (pydict (gmap string Q)))
    (σ : world) : world :=
  World (widgets σ) (connections σ) (labels σ) (trace σ) (stdout σ)
    (slider_widget_map σ) (knob_widget_map σ) (slider_label_map σ) (heap σ)
    (preset_values σ) (presets σ) (current_preset_name σ)
    (current_preset_position σ) (slider_widgets σ) (knobs σ) (main_title σ)
    (pos_lbl σ) (edit_title σ) (f (bank_presets σ)) (bank_current_preset σ)
    (fs σ).

Definition set_bank_current_preset (f : per_bank (option string) → per_bank (option string))
    (σ : world) : world :=
  World (widgets σ) (connections σ) (labels σ) (trace σ) (stdout σ)
    (slider_widget_map σ) (knob_widget_map σ) (slider_label_map σ) (heap σ)
    (preset_values σ) (presets σ) (current_preset_name σ)
    (current_preset_position σ) (slider_widgets σ) (knobs σ) (main_title σ)
    (pos_lbl σ) (edit_title σ) (bank_presets σ) (f (bank_current_preset σ))
    (fs σ).

Definition set_fs (f : filesystem → filesystem) (σ : world) : world :=
  World (widgets σ) (connections σ) (labels σ) (trace σ) (stdout σ)
    (slider_widget_map σ) (knob_widget_map σ) (slider_label_map σ) (heap σ)
    (preset_values σ) (presets σ) (current_preset_name σ)
    (current_preset_position σ) (slider_widgets σ) (knobs σ) (main_title σ)
    (pos_lbl σ) (edit_title σ) (bank_presets σ) (bank_current_preset σ)
    (f (fs σ)).

Definition set_current (name pos : string) (σ : world) : world :=
  World (widgets σ) (connections σ) (labels σ) (trace σ) (stdout σ)
    (slider_widget_map σ) (knob_widget_map σ) (slider_label_map σ) (heap σ)
    (preset_values σ) (presets σ) name pos (slider_widgets σ) (knobs σ)
    (main_title σ) (pos_lbl σ) (edit_title σ) (bank_presets σ)
    (bank_current_preset σ) (fs σ).

Definition set_main_title (f : lid → lid) (σ : world) : world :=
  World (widgets σ) (connections σ) (labels σ) (trace σ) (stdout σ)
    (slider_widget_map σ) (knob_widget_map σ) (slider_label_map σ) (heap σ)
    (preset_values σ) (presets σ) (current_preset_name σ)
    (current_preset_position σ) (slider_widgets σ) (knobs σ)
    (f (main_title σ)) (pos_lbl σ) (edit_title σ) (bank_presets σ)
    (bank_current_preset σ) (fs σ).

Definition set_pos_lbl (f : lid → lid) (σ : world) : world :=
  World (widgets σ) (connections σ) (labels σ) (trace σ) (stdout σ)
    (slider_widget_map σ) (knob_widget_map σ) (slider_label_map σ) (heap σ)
    (preset_values σ) (presets σ) (current_preset_name σ)
    (current_preset_position σ) (slider_widgets σ) (knobs σ) (main_title σ)
    (f (pos_lbl σ)) (edit_title σ) (bank_presets σ) (bank_current_preset σ)
    (fs σ).

(** ** Computations: state, exceptions and fuel *)

Inductive res (A : Type) :=
| Ok (a : A)
| Raise (e : exn)
| OutOfFuel.
Arguments Ok {A} _.
Arguments Raise {A} _.
Arguments OutOfFuel {A}.

Definition M (A : Type) : Type := world → res (A * world).

Definition ret {A} (a : A) : M A := λ σ, Ok (a, σ).

Definition bind {A B} (m : M A) (k : A → M B) : M B :=
  λ σ, match m σ with
       | Ok (a, σ') => k a σ'
       | Raise e => Raise e
       | OutOfFuel => OutOfFuel
       end.

Definition raise {A} (e : exn) : M A := λ _, Raise e.
Definition out_of_fuel {A} : M A := λ _, OutOfFuel.
Definition gets {A} (f : world → A) : M A := λ σ, Ok (f σ, σ).
Definition modify (f : world → world) : M unit := λ σ, Ok (tt, f σ).

(** [try: m  except Exception as e: h(e)] *)
Definition try_except {A} (m : M A) (h : exn → M A) : M A :=
  λ σ, match m σ with
       | Raise e => h e σ
       | r => r
       end.

Declare Scope py_scope.
Delimit Scope py_scope with py.
Notation "x <- m ;; k" := (bind m (λ x, k))
  (at level 100, m at next level, right associativity) : py_scope.
Notation "m ;; k" := (bind m (λ _, k))
  (at level 100, right associativity) : py_scope.
Local Open Scope py_scope.

(** [for x in xs: body(x)] *)
Fixpoint for_each {A} (xs : list A) (body : A → M unit) : M unit :=
  match xs with
  | [] => ret tt
  | x :: xs' => body x ;; for_each xs' body
  end.

(** [print(...)] *)
Definition print (m : message) : M unit := modify (set_stdout (cons m)).

(** ** Access to Qt objects *)

Definition widget (w : wid) : M Qt.QAbstractSlider :=
  λ σ, match widgets σ !! w with
       | Some q => Ok (q, σ)
       | None => Raise RuntimeError
       end.

(** [w.value()] *)
Definition value_of (w : wid) : M Z := q <- widget w ;; ret (Qt.value q).

(** [w.blockSignals(b)] *)
Definition blockSignals (w : wid) (b : bool) : M unit :=
  q <- widget w ;; modify (set_widgets <[w := Qt.with_blocked b q]>).

(** [l.setText(s)] *)
Definition setText (l : lid) (s : string) : M unit :=
  modify (set_labels <[l := s]>).

(** [QAbstractSlider::setValue]: the value is bounded to the range; when it
    does not change nothing happens, otherwise it is stored and, unless the
    widget's signals are blocked, [valueChanged] is emitted.  Every call is
    recorded in [trace]. *)
Definition setValue_with (emit : wid → Qt.signal → Z → M unit) (w : wid) (v : Z) : M unit :=
  q <- widget w ;;
  modify (set_trace (cons (w, v))) ;;
  let v' := Qt.qBound (Qt.minimum q) v (Qt.maximum q) in
  if decide (Qt.value q = v') then ret tt
  else
    modify (set_widgets <[w := Qt.with_value v' q]>) ;;
    if Qt.signalsBlocked q then ret tt else emit w Qt.valueChanged v'.

(** ** The sync engine *)

(** [sync_controls(name, value, source)].  Python's [//] is [Z.div]. *)
Definition sync_controls (setValue : wid → Z → M unit)
    (name : string) (value : Z) (source : string) : M unit :=
  if decide (source = "slider") then
    knob <- gets (λ σ, knob_widget_map σ !! name) ;;
    match knob with
    | Some knob =>
        kv <- value_of knob ;;
        if decide (kv ≠ value / 10) then
          blockSignals knob true ;;
          setValue knob (value / 10) ;;
          blockSignals knob false
        else ret tt
    | None => ret tt
    end
  else if decide (source = "knob") then
    slider <- gets (λ σ, slider_widget_map σ !! name) ;;
    match slider with
    | Some slider =>
        sv <- value_of slider ;;
        if decide (sv ≠ value * 10) then
          blockSignals slider true ;;
          setValue slider (value * 10) ;;
          blockSignals slider false ;;
          label <- gets (λ σ, slider_label_map σ !! name) ;;
          match label with
          | Some label => setText label (fmt_02 value)
          | None => ret tt
          end
        else ret tt
    | None => ret tt
    end
  else ret tt.

(** The closure [knob_to_slider(kv, sl=sld, key=key)]. *)
Definition knob_to_slider (setValue : wid → Z → M unit)
    (kv : Z) (sl : wid) (key : string) : M unit :=
  let sv := kv * 10 in
  cur <- value_of sl ;;
  (if decide (cur ≠ sv) then
     blockSignals sl true ;;
     setValue sl sv ;;
     blockSignals sl false
   else ret tt) ;;
  modify (set_preset_values <[key := inject_Z kv]>).

(** The closure [slider_to_knob(sv, d=dial, key=key)].  [int(sv / 10)]
    truncates the quotient towards zero: [Z.quot]. *)
Definition slider_to_knob (setValue : wid → Z → M unit)
    (sv : Z) (d : wid) (key : string) : M unit :=
  let kv := sv ÷ 10 in
  cur <- value_of d ;;
  (if decide (cur ≠ kv) then
     blockSignals d true ;;
     setValue d kv ;;
     blockSignals d false
   else ret tt) ;;
  modify (set_preset_values <[key := inject_Z kv]>).

(** What a connected closure does when its signal carries [v]. *)
Definition run_handler (setValue : wid → Z → M unit) (h : handler) (v : Z) : M unit :=
  match h with
  | h_update => ret tt
  | h_slider_label l => setText l (fmt_tenths v)
  | h_sync_controls n source => sync_controls setValue n v source
  | h_knob_to_slider sl key => knob_to_slider setValue v sl key
  | h_slider_to_knob d key => slider_to_knob setValue v d key
  | h_lcd l => setText l (fmt_02 v)
  | h_value_map b n =>
      modify (set_heap (alter <[n := inject_Z v]> (value_map b)))
  end.

(** Emission of a signal: the connected closures run in connection order.
    A closure may call [setValue], which may emit in turn; [fuel] bounds the
    depth of that nesting. *)
Fixpoint emit (fuel : nat) (w : wid) (sg : Qt.signal) (v : Z) : M unit :=
  match fuel with
  | O => out_of_fuel
  | S fuel' =>
      c <- gets (λ σ, connections σ !! w) ;;
      for_each (from_option (slots sg) [] c)
        (λ h, run_handler (setValue_with (emit fuel')) h v)
  end.

(** [w.setValue(v)] called by the program. *)
Definition setValue (fuel : nat) : wid → Z → M unit := setValue_with (emit fuel).

(** The user moves widget [w] to [v] ([pressed]: by dragging its handle).
    Qt emits [sliderMoved] while the handle is held, then stores the value
    and emits [valueChanged]. *)
Definition user_change (fuel : nat) (pressed : bool) (w : wid) (v : Z) : M unit :=
  q <- widget w ;;
  let v' := Qt.qBound (Qt.minimum q) v (Qt.maximum q) in
  if decide (Qt.value q = v') then ret tt
  else
    (if pressed && negb (Qt.signalsBlocked q) then emit fuel w Qt.sliderMoved v'
     else ret tt) ;;
    q' <- widget w ;;
    modify (set_widgets <[w := Qt.with_value v' q']>) ;;
    if Qt.signalsBlocked q' then ret tt else emit fuel w Qt.valueChanged v'.

(** Emitting again, unchanged, what widget [w] shows now: the propagation
    that [blockSignals] suppresses after a sync-driven write. *)
Definition propagate (fuel : nat) (w : wid) : M unit :=
  v <- value_of w ;;
  emit fuel w Qt.sliderMoved v ;;
  emit fuel w Qt.valueChanged v.

(** ** The main preset store *)

(** What the user gets to see when an operation ends. *)
Inductive outcome :=
| Returned                         (* plain return, nothing shown *)
| InvalidInput                     (* dialog "Invalid Input" *)
| DuplicateName (name : string)    (* dialog "Duplicate Name" *)
| Saved (name pos : string)        (* "Preset '{name}' saved at {pos}" *)
| BankSaved (name : string)        (* "Preset '{name}' saved." *)
| Renamed (old new : string)
| Deleted (name : string)
| Loaded (name : string).

Definition rows : list Z := [1; 2; 3; 4].
Definition cols : list ascii := String.list_ascii_of_string "ABCDEF".

(** [f"{r}{c}"] *)
Definition pos_text (r : Z) (c : ascii) : string := str r +:+ String c "".

Fixpoint scan_cols (used : gset string) (r : Z) (cs : list ascii) : option string :=
  match cs with
  | [] => None
  | c :: cs' =>
      if decide (pos_text r c ∉ used) then Some (pos_text r c)
      else scan_cols used r cs'
  end.

Fixpoint scan_rows (used : gset string) (rs : list Z) : option string :=
  match rs with
  | [] => None
  | r :: rs' =>
      match scan_cols used r cols with
      | Some pos => Some pos
      | None => scan_rows used rs'
      end
  end.

(** [SpringHallUI._next_pos] *)
Definition _next_pos (σ : world) : string :=
  let used : gset string := list_to_set (position <$> PyDict.values (presets σ)) in
  default "??" (scan_rows used rows).

(** A new dict object holding [d]. *)
Definition alloc (d : gmap string Q) : M loc :=
  λ σ, let l := fresh (dom (heap σ)) in Ok (l, set_heap <[l := d]> σ).

(** [m.copy()] for the dict object at [l]. *)
Definition dict_copy (l : loc) : M loc :=
  λ σ, match heap σ !! l with
       | Some d => alloc d σ
       | None => Raise RuntimeError
       end.

(** [{n: s.value() / 10 for n, s, _ in self.slider_widgets}] *)
Fixpoint slider_values (sw : list (string * wid * lid)) (acc : gmap string Q) : M (gmap string Q) :=
  match sw with
  | [] => ret acc
  | (n, s, _) :: sw' =>
      v <- value_of s ;;
      slider_values sw' (<[n := (inject_Z v / 10)%Q]> acc)
  end.

(** [json.dump(self.presets, f)] *)
Definition dump_preset (h : gmap loc (gmap string Q)) (p : preset) : jpreset :=
  JPreset (position p) (values p)
    (bank_map (λ l, default ∅ (h !! l)) <$> modulation p).

Definition dump_presets (σ : world) : pydict jpreset :=
  prod_map id (dump_preset (heap σ)) <$> presets σ.

Definition write_preset_file : M unit :=
  modify (λ σ, set_fs (λ f, FS (Some (Doc (dump_presets σ))) (bank_preset_file f)) σ) ;;
  print msg_written.

(** [SpringHallUI._refresh_edit_title] *)
Definition _refresh_edit_title : M unit :=
  t <- gets edit_title ;;
  match t with
  | Some l => n <- gets current_preset_name ;; setText l n
  | None => ret tt
  end.

(** [SpringHallUI._save_preset].  [dlg] is what the save dialog returned:
    [None] when it was dismissed, the text of its line otherwise. *)
Definition _save_preset (dlg : option string) : M outcome :=
  suggested <- gets _next_pos ;;
  match dlg with
  | None => ret Returned
  | Some text =>
      let name := strip (strip text) in
      if decide (name = "") then ret InvalidInput
      else
        ps <- gets presets ;;
        if PyDict.contains name ps then ret (DuplicateName name)
        else
          sw <- gets slider_widgets ;;
          vals <- slider_values sw ∅ ;;
          m <- dict_copy mod_value_map ;;
          b <- dict_copy bic_value_map ;;
          e <- dict_copy ech_value_map ;;
          modify (set_presets
                    (PyDict.set name (Preset suggested vals (Some (PerBank m b e))))) ;;
          write_preset_file ;;
          modify (set_current name suggested) ;;
          mt <- gets main_title ;;
          setText mt name ;;
          _refresh_edit_title ;;
          pl <- gets pos_lbl ;;
          setText pl ("User Preset " +:+ suggested) ;;
          ret (Saved name suggested)
  end.

(** [for k, v in src.items(): dst[k] = v] on dict objects. *)
Definition update_from (dst : loc) (src : option loc) : M unit :=
  modify (set_heap (λ h,
    match src ≫= (λ l, h !! l) with
    | Some vals => alter (λ d, vals ∪ d) dst h
    | None => h
    end)).

(** PyQt hands the argument of [setValue] to Qt as a C [int]: for a Python
    int outside of its 32 bits the call raises [OverflowError] and Qt is not
    reached. *)
Definition c_int (v : Z) : M Z :=
  if decide (- 2 ^ 31 ≤ v < 2 ^ 31) then ret v else raise OverflowError.

(** [for name, knob in knobs.items(): knob.setValue(int(m.get(name, 0)))].
    The loop variable is the [name] of the enclosing function: the result is
    what [name] is bound to when the loop ends. *)
Fixpoint load_knobs (fuel : nat) (m : loc) (ks : pydict wid) (name : string) : M string :=
  match ks with
  | [] => ret name
  | (name', knob) :: ks' =>
      d <- gets (λ σ, default ∅ (heap σ !! m)) ;;
      v <- c_int (py_int (default 0%Q (d !! name'))) ;;
      setValue fuel knob v ;;
      load_knobs fuel m ks' name'
  end.

(** [SpringHallUI._load_preset] *)
Definition _load_preset (fuel : nat) (name : string) : M outcome :=
  ps <- gets presets ;;
  match PyDict.get name ps with
  | None => ret Returned
  | Some data =>
      sw <- gets slider_widgets ;;
      for_each sw (λ '(n, sld, _),
        v <- c_int (py_int (default 0%Q (values data !! n) * 10)) ;;
        setValue fuel sld v) ;;
      update_from mod_value_map (of_mod <$> modulation data) ;;
      update_from bic_value_map (of_bic <$> modulation data) ;;
      update_from ech_value_map (of_ech <$> modulation data) ;;
      ks <- gets knobs ;;
      name <- match ks with
              | Some ks =>
                  name <- load_knobs fuel mod_value_map (of_mod ks) name ;;
                  name <- load_knobs fuel bic_value_map (of_bic ks) name ;;
                  load_knobs fuel ech_value_map (of_ech ks) name
              | None => ret name
              end ;;
      modify (set_current name (position data)) ;;
      mt <- gets main_title ;;
      setText mt name ;;
      pl <- gets pos_lbl ;;
      setText pl ("User Preset " +:+ position data) ;;
      _refresh_edit_title ;;
      ret (Loaded name)
  end.

(** *** The presets window

    [PresetsWindow(self.presets, ...)] keeps a reference to the dict of the
    main window: its operations act on [presets] itself.  [item] is the name
    shown by the selected list item, if any. *)

(** [PresetsWindow._rename] *)
Definition _rename (item : option string) (dlg : option string) : M outcome :=
  match item, dlg with
  | Some old, Some text =>
      let new := strip text in
      if decide (new = "") then ret InvalidInput
      else
        ps <- gets presets ;;
        if bool_decide (new ≠ old) && PyDict.contains new ps then ret (DuplicateName new)
        else
          match PyDict.pop old ps with
          | Some (p, ps') =>
              modify (set_presets (λ _, PyDict.set new p ps')) ;;
              ret (Renamed old new)
          | None => raise (KeyError old)
          end
  | _, _ => ret Returned
  end.

(** [PresetsWindow._delete]; [yes]: the answer to "Delete preset ...?" *)
Definition _delete (item : option string) (yes : bool) : M outcome :=
  match item with
  | Some name =>
      if yes then modify (set_presets (PyDict.remove name)) ;; ret (Deleted name)
      else ret Returned
  | None => ret Returned
  end.

(** ** The modulation-unit banks *)

Inductive reply := Yes | No.

#[global] Instance reply_eq_dec : EqDecision reply.
Proof. solve_decision. Defined.

(** [{lbl: knob.value() for lbl, knob in knobs.items()}] *)
Fixpoint knob_values (ks : pydict wid) (acc : gmap string Q) : M (gmap string Q) :=
  match ks with
  | [] => ret acc
  | (lbl, knob) :: ks' =>
      v <- value_of knob ;;
      knob_values ks' (<[lbl := inject_Z v]> acc)
  end.

(** The closure [save_mod_presets] that [__init__] stores in
    [self.save_mod_presets]: it writes [self.mod_presets]. *)
Definition save_mod_presets : M unit :=
  modify (λ σ, set_fs (λ f,
    FS (preset_file f)
       (bank_set Mod (Some (Doc (of_mod (bank_presets σ)))) (bank_preset_file f))) σ).

(** [save_preset(presets_dict, get_knobs_func, current_preset_attr,
    screen_label)] of the modulation pages, for the bank [b].  [overwrite]
    is the answer to "Preset exists. Overwrite?", asked only when it does. *)
Definition save_preset (b : bank) (get_knobs : pydict wid) (screen_label : lid)
    (dlg : option string) (overwrite : reply) : M outcome :=
  match dlg with
  | None => ret Returned
  | Some text =>
      let name := strip text in
      if decide (name = "") then ret Returned
      else
        ps <- gets (λ σ, bank_get b (bank_presets σ)) ;;
        if PyDict.contains name ps && bool_decide (overwrite = No) then ret Returned
        else
          vals <- knob_values get_knobs ∅ ;;
          modify (set_bank_presets (λ bp, bank_set b (PyDict.set name vals (bank_get b bp)) bp)) ;;
          modify (set_bank_current_preset (bank_set b (Some name))) ;;
          setText screen_label name ;;
          save_mod_presets ;;
          ret (BankSaved name)
  end.

(** ** Start-up *)

Definition SLIDERS : list (string * Q) :=
  [("DECAY", 50%Q); ("DAMPING", 25.4%Q); ("WET/DRY", 26.5%Q);
   ("LEVEL", 50.4%Q); ("WEIGHT", 80.6%Q); ("DIFFUSION", 50%Q)].

(** The process once the module is imported, on the disk [disk]. *)
Definition imported (disk : filesystem) : world :=
  World ∅ ∅ ∅ [] [] ∅ ∅ ∅
    (<[mod_value_map := list_to_map [("Speed", 0%Q); ("Shape", 0%Q); ("Phase", 0%Q); ("Spread", 0%Q)]]>
     (<[bic_value_map := list_to_map [("Rate", 0%Q); ("Depth", 0%Q); ("Tone", 0%Q); ("Mix", 0%Q)]]>
      (<[ech_value_map := list_to_map [("Time", 0%Q); ("FB", 0%Q); ("Tone", 0%Q); ("Mod", 0%Q); ("Mix", 0%Q); ("Level", 0%Q)]]> ∅)))
    ∅ [] "" "" [] None 0%nat 0%nat None
    (PerBank [] [] []) (PerBank None None None) disk.

(** The local function [load_presets(path)] of [__init__]. *)
Definition load_presets (path : bank) : M (pydict (gmap string Q)) :=
  f <- gets (λ σ, bank_get path (bank_preset_file (fs σ))) ;;
  match f with
  | Some (Doc d) => ret d
  | Some Malformed => raise JSONDecodeError
  | None => ret []
  end.

(** [json.load] of the main store builds new dict objects. *)
Definition alloc_preset (j : jpreset) : M preset :=
  match j_modulation j with
  | Some m =>
      lm <- alloc (of_mod m) ;;
      lb <- alloc (of_bic m) ;;
      le <- alloc (of_ech m) ;;
      ret (Preset (j_position j) (j_values j) (Some (PerBank lm lb le)))
  | None => ret (Preset (j_position j) (j_values j) None)
  end.

Fixpoint alloc_presets (doc : pydict jpreset) : M (pydict preset) :=
  match doc with
  | [] => ret []
  | (n, j) :: doc' =>
      p <- alloc_preset j ;;
      ps <- alloc_presets doc' ;;
      ret ((n, p) :: ps)
  end.

Definition json_load_presets : M (pydict preset) :=
  f <- gets (λ σ, preset_file (fs σ)) ;;
  match f with
  | Some (Doc d) => alloc_presets d
  | _ => raise JSONDecodeError
  end.

(** [SpringHallUI.__init__], up to the composition of the window: the three
    banks, the default values and the main store. *)
Definition SpringHallUI__init__ : M unit :=
  bic <- load_presets Bic ;;
  mod_ <- load_presets Mod ;;
  ech <- load_presets Ech ;;
  modify (set_bank_presets (λ _, PerBank mod_ bic ech)) ;;
  modify (set_bank_current_preset (λ _, PerBank None None None)) ;;
  modify (set_preset_values (λ _, list_to_map (prod_map upper id <$> SLIDERS))) ;;
  modify (set_presets (λ _, [])) ;;
  modify (set_current "SpringHall" "1A") ;;
  modify (set_slider_widgets (λ _, [])) ;;
  exists_ <- gets (λ σ, bool_decide (is_Some (preset_file (fs σ)))) ;;
  if exists_ then
    try_except
      (ps <- json_load_presets ;;
       modify (set_presets (λ _, ps)) ;;
       print (msg_loaded (length ps)))
      (λ e, print (msg_read_error e))
  else ret tt.

(** ** Building the window *)

(** A new slider or dial, with the closures its constructor connects. *)
Definition new_widget (q : Qt.QAbstractSlider) (c : signals) : M wid :=
  λ σ, let w := fresh (dom (widgets σ)) in
       Ok (w, set_connections <[w := c]> (set_widgets <[w := q]> σ)).

(** [QLabel(text)] *)
Definition new_label (text : string) : M lid :=
  λ σ, let l := fresh (dom (labels σ)) in Ok (l, set_labels <[l := text]> σ).

(** [w.sg.connect(h)] *)
Definition connect (w : wid) (sg : Qt.signal) (h : handler) : M unit :=
  modify (set_connections (alter (λ c,
    match sg with
    | Qt.valueChanged => Signals (on_valueChanged c ++ [h])%list (on_sliderMoved c)
    | Qt.sliderMoved => Signals (on_valueChanged c) (on_sliderMoved c ++ [h])%list
    end) w)).

(** The body of the loop [for name, default in self.SLIDERS] of
    [_compose]. *)
Definition compose_slider (fuel : nat) (name : string) (default : Q) : M unit :=
  lbl_val <- new_label (fmt_number default) ;;
  sld <- new_widget (Qt.make 0 1000) (Signals [] []) ;;
  setValue fuel sld (py_int (default * 10)) ;;
  connect sld Qt.valueChanged (h_slider_label lbl_val) ;;
  connect sld Qt.valueChanged (h_sync_controls (upper name) "slider") ;;
  modify (set_slider_widget_map <[upper name := sld]>) ;;
  modify (set_slider_label_map <[upper name := lbl_val]>) ;;
  modify (set_slider_widgets (λ l, (l ++ [(name, sld, lbl_val)])%list)).

(** [SpringHallUI._compose]: the two titles and the sliders. *)
Definition _compose (fuel : nat) : M unit :=
  n <- gets current_preset_name ;;
  mt <- new_label n ;;
  modify (set_main_title (λ _, mt)) ;;
  p <- gets current_preset_position ;;
  pl <- new_label ("Default Preset " +:+ p) ;;
  modify (set_pos_lbl (λ _, pl)) ;;
  for_each SLIDERS (λ '(name, default), compose_slider fuel name default).

Definition names : list string :=
  ["DECAY"; "PRE‑DELAY"; "SIZE"; "DAMPING"; "DIFFUSION"; "WIDTH";
   "MOD RATE"; "MOD DEPTH"; "MIX"; "LEVEL"; "LOW‑CUT"; "HIGH‑CUT"].

(** [key = "WET/DRY" if name.upper() == "MIX" else name.upper()] *)
Definition edit_key (name : string) : string :=
  if decide (upper name = "MIX") then "WET/DRY" else upper name.

(** The body of the loop [for idx, name in enumerate(names)] of
    [_show_edit_preset]: one dial, its LCD and, when a slider has the same
    key, the two-way binding.  [sliders] is the local [slider_widget_map]. *)
Definition edit_knob (fuel : nat) (sliders : gmap string wid) (name : string) : M wid :=
  dial <- new_widget (Qt.make 0 100) (Signals [h_update] []) ;;
  let key := edit_key name in
  init <- gets (λ σ, default 50%Q (preset_values σ !! key)) ;;
  setValue fuel dial (py_round init) ;;
  lcd <- new_label (fmt_02 (py_round init)) ;;
  match sliders !! key with
  | Some sld =>
      connect dial Qt.valueChanged (h_knob_to_slider sld key) ;;
      connect sld Qt.valueChanged (h_slider_to_knob dial key) ;;
      connect sld Qt.sliderMoved (h_slider_to_knob dial key)
  | None => ret tt
  end ;;
  connect dial Qt.valueChanged (h_lcd lcd) ;;
  ret dial.

Fixpoint edit_knobs (fuel : nat) (sliders : gmap string wid) (ns : list string)
    (knob_controls : pydict wid) : M (pydict wid) :=
  match ns with
  | [] => ret knob_controls
  | name :: ns' =>
      dial <- edit_knob fuel sliders name ;;
      edit_knobs fuel sliders ns' (PyDict.set name dial knob_controls)
  end.

(** [SpringHallUI._show_edit_preset]: the sliders are reset from the shared
    values, then the dials are built, bound and set.  The result is
    [self.knob_controls]. *)
Definition _show_edit_preset (fuel : nat) : M (pydict wid) :=
  sw <- gets slider_widgets ;;
  for_each sw (λ '(name, slider, _),
    val <- gets (λ σ, default 50%Q (preset_values σ !! edit_key name)) ;;
    blockSignals slider true ;;
    setValue fuel slider (py_int (val * 10)) ;;
    blockSignals slider false) ;;
  n <- gets current_preset_name ;;
  t <- new_label n ;;
  modify (set_edit_title (λ _, Some t)) ;;
  let sliders : gmap string wid :=
    foldl (λ m '(n, s, _), <[upper n := s]> m) ∅ sw in
  knob_controls <- edit_knobs fuel sliders names [] ;;
  for_each knob_controls (λ '(name, dial),
    val <- gets (λ σ, default 50%Q (preset_values σ !! edit_key name)) ;;
    blockSignals dial true ;;
    setValue fuel dial (py_round val) ;;
    blockSignals dial false) ;;
  ret knob_controls.

(** [custom_knob(...)] of the modulation pages: a dial showing 50 and the
    label under it. *)
Definition custom_knob (fuel : nat) : M wid :=
  kb <- new_widget (Qt.make 0 100) (Signals [h_update] []) ;;
  setValue fuel kb 50 ;;
  val_lbl <- new_label "50" ;;
  connect kb Qt.valueChanged (h_lcd val_lbl) ;;
  ret kb.

(** A dict display [{"Rate": custom_knob(...), ...}]. *)
Fixpoint custom_knobs (fuel : nat) (lbls : list string) (acc : pydict wid) : M (pydict wid) :=
  match lbls with
  | [] => ret acc
  | lbl :: lbls' =>
      kb <- custom_knob fuel ;;
      custom_knobs fuel lbls' (PyDict.set lbl kb acc)
  end.

(** [for name, knob in knobs.items():
       knob.setValue(int(m.get(name, 0)))
       knob.valueChanged.connect(lambda val, n=name: m.update({n: val}))] *)
Definition bind_value_map (fuel : nat) (b : bank) (ks : pydict wid) : M unit :=
  for_each ks (λ '(name, knob),
    d <- gets (λ σ, default ∅ (heap σ !! value_map b)) ;;
    setValue fuel knob (py_int (default 0%Q (d !! name))) ;;
    connect knob Qt.valueChanged (h_value_map b name)).

(** [SpringHallUI._show_dynamics_page] (and [_show_modulation_page], which
    builds the same knobs): the knobs of the three units. *)
Definition _show_dynamics_page (fuel : nat) : M unit :=
  bic_knobs <- custom_knobs fuel ["Rate"; "Depth"; "Tone"; "Mix"] [] ;;
  bind_value_map fuel Bic bic_knobs ;;
  mod_knobs <- custom_knobs fuel ["Speed"; "Shape"; "Phase"; "Spread"] [] ;;
  bind_value_map fuel Mod mod_knobs ;;
  ech_knobs <- custom_knobs fuel ["Time"; "FB"; "Tone"; "Mod"; "Mix"; "Level"] [] ;;
  bind_value_map fuel Ech ech_knobs ;;
  modify (set_knobs (λ _, Some (PerBank mod_knobs bic_knobs ech_knobs))).

(** The window after start-up on the disk [disk]. *)
Definition started (disk : filesystem) : res (unit * world) :=
  (SpringHallUI__init__ ;; _compose 1) (imported disk).


(** ** More of the modulation pages *)

(** What a page shows when one of its buttons has run. *)
Inductive page_outcome :=
| NoPresetSelected      (* warning "No preset selected" *)
| Updated (name : string)
| Closed.

(** The closures [save_bic_presets], [save_mod_presets] and
    [save_ech_presets] of [__init__]: each writes its own bank to its own
    file. *)
Definition save_bank_presets (b : bank) : M unit :=
  modify (λ σ, set_fs (λ f,
    FS (preset_file f)
       (bank_set b (Some (Doc (bank_get b (bank_presets σ)))) (bank_preset_file f))) σ).

(** The truth value of [self.bic_current_preset] and the like: a name that
    is not empty. *)
Definition truthy (name : option string) : option string :=
  match name with
  | Some n => if decide (n = "") then None else Some n
  | None => None
  end.

(** [update_preset(presets_dict, get_knobs_func, current_preset_attr,
    screen_label)] of the modulation pages, for the bank [b]. *)
Definition update_preset (b : bank) (get_knobs : pydict wid) (screen_label : lid) :
    M page_outcome :=
  name <- gets (λ σ, bank_get b (bank_current_preset σ)) ;;
  match truthy name with
  | None => ret NoPresetSelected
  | Some name =>
      vals <- knob_values get_knobs ∅ ;;
      modify (set_bank_presets (λ bp, bank_set b (PyDict.set name vals (bank_get b bp)) bp)) ;;
      setText screen_label name ;;
      save_mod_presets ;;
      ret (Updated name)
  end.

(** One [if self.bic_current_preset: ...] of [on_close]. *)
Definition close_bank (b : bank) (ks : pydict wid) : M unit :=
  name <- gets (λ σ, bank_get b (bank_current_preset σ)) ;;
  match truthy name with
  | None => ret tt
  | Some name =>
      vals <- knob_values ks ∅ ;;
      modify (set_bank_presets (λ bp, bank_set b (PyDict.set name vals (bank_get b bp)) bp)) ;;
      save_bank_presets b
  end.

(** [on_close] of the modulation pages; [ks] are the knobs of the page. *)
Definition on_close (ks : per_bank (pydict wid)) : M page_outcome :=
  close_bank Bic (of_bic ks) ;;
  close_bank Mod (of_mod ks) ;;
  close_bank Ech (of_ech ks) ;;
  ret Closed.

(** ** The list of the presets window *)

(** [f"{n}  [{d.get('position', '')}]"], the text of a list item. *)
Definition item_text (n : string) (d : preset) : string :=
  n +:+ "  [" +:+ position d +:+ "]".

(** [s.startswith(p)] *)
Fixpoint startswith (p s : string) : bool :=
  match p, s with
  | EmptyString, _ => true
  | String a p', String b s' => bool_decide (a = b) && startswith p' s'
  | String _ _, EmptyString => false
  end.

(** [s.split(sep)[0]] for a separator that is not empty: [s] up to the
    first occurrence of [sep], all of [s] when there is none. *)
Fixpoint split_0 (sep s : string) : string :=
  match s with
  | EmptyString => EmptyString
  | String c s' => if startswith sep s then EmptyString else String c (split_0 sep s')
  end.

(** [item.text().split("  [")[0]], the name the window reads back from an
    item. *)
Definition item_name (text : string) : string := split_0 "  [" text.

(** [PresetsWindow._populate]: the texts of the items, in the order of the
    store. *)
Definition _populate : M (list string) :=
  gets (λ σ, (λ e, item_text e.1 e.2) <$> presets σ).

(** [_rename] and [_delete] with the list item whose text is [text]
    selected, and [_dbl_clicked] on it, which emits [preset_selected] to
    [_load_preset]. *)
Definition rename_item (text : string) (dlg : option string) : M outcome :=
  _rename (Some (item_name text)) dlg.

Definition delete_item (text : string) (yes : bool) : M outcome :=
  _delete (Some (item_name text)) yes.

Definition _dbl_clicked (fuel : nat) (text : string) : M outcome :=
  _load_preset fuel (item_name text).
(** ** The blend surface *)

Module SoniSphere.

Import Floats.
Local Open Scope float_scope.

(** [QPoint], the integer position a mouse event reports, and [QPointF]. *)
Record QPoint := IPoint { ix : Z; iy : Z }.
Record QPointF := Point { px : float; py : float }.

(** A Python int as a float, for ints of less than 63 bits. *)
Definition of_int (z : Z) : float :=
  match z with
  | Z0 => 0
  | Zpos _ => of_uint63 (Uint63.of_Z z)
  | Zneg p => - of_uint63 (Uint63.of_Z (Zpos p))
  end.

Definition of_QPoint (p : QPoint) : QPointF := Point (of_int (ix p)) (of_int (iy p)).

(** [self.setFixedSize(1024, 600)] *)
Definition width : Z := 1024.
Definition height : Z := 600.

Record state := State {
  cursor_pos : QPointF;
  secondary_pos : QPointF;
  dragging : bool;
  secondary_dragging : bool
}.

(** [SoniSphere.__init__]: the two cursors and the drag flags. *)
Definition init : state :=
  let center_x := of_int width / 2 in
  let center_y := of_int height / 2 in
  State (Point (center_x - 20) center_y) (Point (center_x + 20) center_y)
        false false.







Record blend := Blend { A : float; B : float; C : float; D : float }.

(** [sum(blend.values())]: the four weights are added to 0 in the order A,
    B, C, D. *)
Definition total (w : blend) : float := 0 + A w + B w + C w + D w.

(** [SoniSphere.calculate_blend] *)
Definition calculate_blend (st : state) : blend :=
  let x := px (cursor_pos st) / of_int width in
  let y := py (cursor_pos st) / of_int height in
  let top := 1 - y in
  let bottom := y in
  let left := 1 - x in
  let right := x in
  let blend := Blend (left * top) (right * top) (left * bottom) (right * bottom) in
  let total := total blend in
  let divisor := if total =? 0 then 1 else total in
  Blend (A blend / divisor) (B blend / divisor) (C blend / divisor) (D blend / divisor).




(** *** Vocabulary *)

Definition center : QPointF := Point (of_int width / 2) (of_int height / 2).

(** The doubles next to the correctly rounded square root. *)
Definition cands (s : float) : list float :=
  [next_down (sqrt s); sqrt s; next_up (sqrt s)].



(** The result of the clamp when the distance computed is [dist]. *)
Definition clamp_at (dist : float) (point center : QPointF) (radius : float) : QPointF :=
  if radius <? dist then
    Point (px center + (px point - px center) * (radius / dist))
          (py center + (py point - py center) * (radius / dist))
  else point.

(** The squared distance of [p] from [c], evaluated in doubles. *)
Definition sqdist (p c : QPointF) : float :=
  (px p - px c) * (px p - px c) + (py p - py c) * (py p - py c).

(** 200^2 less and plus 2^-33. *)
Definition sq_lo : float := 0x1.387fffffffff0p+15.
Definition sq_hi : float := 0x1.3880000000010p+15.

(** In the circle of radius 200 around the centre, up to rounding. *)
Definition near_circle (p : QPointF) : bool := sqdist p center <=? sq_hi.



(** The squared distance of a mouse position from the centre, an integer. *)
Definition sqdist_int (pos : QPoint) : Z :=
  ((ix pos - 512) * (ix pos - 512) + (iy pos - 300) * (iy pos - 300))%Z.

(** The weights before they are divided by their sum. *)
Definition raw_blend (st : state) : blend :=
  let x := px (cursor_pos st) / of_int width in
  let y := py (cursor_pos st) / of_int height in
  Blend ((1 - x) * (1 - y)) (x * (1 - y)) ((1 - x) * y) (x * y).

Definition in_unit (x : float) : bool := (0 <=? x) && (x <=? 1).

(** 1 less and plus 2^-52. *)
Definition one_lo : float := 0x1.ffffffffffffep-1.
Definition one_hi : float := 0x1.0000000000001p+0.

(** With the primary cursor at [p]: the normalised coordinates are in
    [0,1], the raw sum is not 0, no weight is negative and the weights add
    up to 1 up to rounding. *)
Definition blend_ok (p : QPointF) : bool :=
  let st := State p p false false in
  let w := calculate_blend st in
  in_unit (px p / of_int width) && in_unit (py p / of_int height) &&
  negb (total (raw_blend st) =? 0) &&
  (0 <=? A w) && (0 <=? B w) && (0 <=? C w) && (0 <=? D w) &&
  (one_lo <=? total w) && (total w <=? one_hi).

Definition good (p : QPointF) : bool := near_circle p && blend_ok p.

(** The exact value of a double. *)
Definition exact (f : float) : option Q :=
  match Prim2SF f with
  | S754_zero _ => Some 0%Q
  | S754_finite s m e => Some (inject_Z (if s then Z.neg m else Z.pos m) * Qpower 2 e)%Q
  | _ => None
  end.



(** What is checked at the position [(x, y)], for each distance the C
    library can compute there. *)
Definition cand_ok (x y : Z) (d : float) : bool :=
  let pos := IPoint x y in
  let r := clamp_at d (of_QPoint pos) center 200 in
  good r &&
  (if (sqdist_int pos <? 40000)%Z then negb (200 <? d) else true) &&
  (if (40000 <? sqdist_int pos)%Z then (200 <? d) && (sq_lo <=? sqdist r center) else true).

Definition point_ok (x y : Z) : bool :=
  let dx := of_int x - px center in
  let dy := of_int y - py center in
  Leibniz.eqb dx (of_int (x - 512)) && Leibniz.eqb dy (of_int (y - 300)) &&
  forallb (cand_ok x y) (cands (dx * dx + dy * dy)).

(** Every position of the surface, one after the other. *)
Definition surface_ok : bool :=
  forallb (λ x, forallb (point_ok x) (seqZ 0 height)) (seqZ 0 width).

(** *** The presets of the corners *)

Inductive error := KeyError (k : string) | IndexError | ValueError.

(** [self.presets] and the texts of [self.labels], by corner, and how often
    [open_presets_callback] has run. *)
Record corners := Corners {
  presets : pydict string;
  labels : pydict string;
  opened : nat
}.

Definition corner_names : list string :=
  ["top_left"; "top_right"; "bottom_left"; "bottom_right"].

(** The corners as [__init__] and [_create_corner_ui] leave them. *)
Definition init_corners : corners :=
  Corners ((λ c, (c, "Preset 1")) <$> corner_names)
          ((λ c, (c, "Preset 1")) <$> corner_names) 0.

(** [s.split()]: the words of [s] between runs of whitespace. *)
Fixpoint split_go (cur : option string) (s : string) : list string :=
  match s with
  | EmptyString => option_list (String.rev <$> cur)
  | String c s' =>
      if isspace c then option_list (String.rev <$> cur) ++ split_go None s'
      else split_go (Some (String c (default EmptyString cur))) s'
  end.

Definition split (s : string) : list string := split_go None s.

(** [int(s)] on decimal numerals with an optional minus sign; [None] is the
    [ValueError]. *)
Definition int (s : string) : option Z := Z.of_int <$> NilZero.int_of_string s.

(** [SoniSphere.update_preset]: the assignment comes before the look-up of
    the label. *)
Definition update_preset (corner new_preset_name : string) (st : corners) :
    option error * corners :=
  let st1 := Corners (PyDict.set corner new_preset_name (presets st)) (labels st) (opened st) in
  if PyDict.contains corner (labels st1) then
    (None, Corners (presets st1) (PyDict.set corner new_preset_name (labels st1)) (opened st1))
  else (Some (KeyError corner), st1).

(** [SoniSphere.open_presets_page]; the window is built with a callback. *)
Definition open_presets_page (corner : string) (st : corners) : option error * corners :=
  match PyDict.get corner (presets st) with
  | None => (Some (KeyError corner), st)
  | Some current =>
      let st1 := Corners (presets st) (labels st) (S (opened st)) in
      match last (split current) with
      | None => (Some IndexError, st1)
      | Some word =>
          match int word with
          | None => (Some ValueError, st1)
          | Some current_num =>
              let new_num := (current_num mod 10 + 1)%Z in
              update_preset corner ("Preset " +:+ str new_num) st1
          end
      end
  end.

(** The slot of button [idx] (0..3) of [corner]:
    [lambda _, c=corner, idx=i: self.open_presets_page(f"{c}_{idx+1}")] *)
Definition button_clicked (corner : string) (idx : Z) (st : corners) : option error * corners :=
  open_presets_page (corner +:+ "_" +:+ str (idx + 1)%Z) st.

(** [SoniSphere._handle_button_click] *)
Definition _handle_button_click (corner : string) (preset_index : Z) (st : corners) :
    option error * corners :=
  match update_preset corner ("Preset " +:+ str preset_index) st with
  | (None, st1) => (None, Corners (presets st1) (labels st1) (S (opened st1)))
  | r => r
  end.

End SoniSphere.
(** * Vocabulary of the properties *)

(** ** Effects of the sync engine *)

(** The value shown by widget [w]. *)
Definition value_at (σ : world) (w : wid) : option Z :=
  Qt.value <$> widgets σ !! w.

(** A widget after a sync-driven write of [x]. *)
Definition synced (x : Z) (q : Qt.QAbstractSlider) : Qt.QAbstractSlider :=
  {| Qt.value := Qt.qBound (Qt.minimum q) x (Qt.maximum q);
     Qt.minimum := Qt.minimum q; Qt.maximum := Qt.maximum q;
     Qt.signalsBlocked := false |}.

(** The world after [blockSignals(True); setValue(x); blockSignals(False)]
    on widget [t]. *)
Definition written (t : wid) (x : Z) (q : Qt.QAbstractSlider) (σ : world) : world :=
  set_trace (cons (t, x)) (set_widgets <[t := synced x q]> σ).

(** The re-entrancy guard: the write happens only when [t] shows another
    value. *)
Definition write_if_differs (t : wid) (x : Z) (q : Qt.QAbstractSlider) (σ : world) : world :=
  if decide (Qt.value q ≠ x) then written t x q σ else σ.

(** The widget a closure writes to, and the value it writes, when its signal
    carries [v]. *)
Definition target (σ : world) (h : handler) (v : Z) : option (wid * Z) :=
  match h with
  | h_sync_controls n source =>
      if decide (source = "slider") then
        (λ k, (k, v / 10)) <$> knob_widget_map σ !! n
      else if decide (source = "knob") then
        (λ s, (s, v * 10)) <$> slider_widget_map σ !! n
      else None
  | h_knob_to_slider sl _ => Some (sl, v * 10)
  | h_slider_to_knob d _ => Some (d, v ÷ 10)
  | _ => None
  end.

Definition target_effect (σ : world) (h : handler) (v : Z) : world :=
  match target σ h v with
  | Some (t, x) =>
      match widgets σ !! t with
      | Some q => write_if_differs t x q σ
      | None => σ
      end
  | None => σ
  end.

(** What a closure stores in [self.preset_values]. *)
Definition preset_effect (h : handler) (v : Z) (pv : gmap string Q) : gmap string Q :=
  match h with
  | h_knob_to_slider _ key => <[key := inject_Z v]> pv
  | h_slider_to_knob _ key => <[key := inject_Z (v ÷ 10)]> pv
  | _ => pv
  end.

(** What the sync engine leaves alone: everything but the values and block
    flags of the widgets, the label texts, the shared values, the trace and
    the contents of the three live value maps. *)
Record engine_frame (σ σ' : world) : Prop := EngineFrame {
  ef_connections : connections σ' = connections σ;
  ef_slider_widget_map : slider_widget_map σ' = slider_widget_map σ;
  ef_knob_widget_map : knob_widget_map σ' = knob_widget_map σ;
  ef_slider_label_map : slider_label_map σ' = slider_label_map σ;
  ef_presets : presets σ' = presets σ;
  ef_current_preset_name : current_preset_name σ' = current_preset_name σ;
  ef_current_preset_position : current_preset_position σ' = current_preset_position σ;
  ef_slider_widgets : slider_widgets σ' = slider_widgets σ;
  ef_knobs : knobs σ' = knobs σ;
  ef_main_title : main_title σ' = main_title σ;
  ef_pos_lbl : pos_lbl σ' = pos_lbl σ;
  ef_edit_title : edit_title σ' = edit_title σ;
  ef_bank_presets : bank_presets σ' = bank_presets σ;
  ef_bank_current_preset : bank_current_preset σ' = bank_current_preset σ;
  ef_fs : fs σ' = fs σ;
  ef_stdout : stdout σ' = stdout σ;
  ef_minimum : ∀ w, Qt.minimum <$> widgets σ' !! w = Qt.minimum <$> widgets σ !! w;
  ef_maximum : ∀ w, Qt.maximum <$> widgets σ' !! w = Qt.maximum <$> widgets σ !! w;
  ef_heap_dom : dom (heap σ') = dom (heap σ);
  ef_heap : ∀ l, (∀ b, l ≠ value_map b) → heap σ' !! l = heap σ !! l
}.

(** The widget a closure writes to exists. *)
Definition handler_ok (σ : world) (h : handler) : Prop :=
  match target σ h 0 with
  | Some (t, _) => is_Some (widgets σ !! t)
  | None => True
  end.

(** Every connected closure refers to widgets that exist. *)
Definition wf (σ : world) : Prop :=
  map_Forall (λ _ c, Forall (handler_ok σ) (on_valueChanged c ++ on_sliderMoved c))
    (connections σ).

#[global] Instance handler_ok_dec σ h : Decision (handler_ok σ h).
Proof. unfold handler_ok. destruct (target σ h 0) as [[t ?]|]; apply _. Defined.

#[global] Instance wf_dec σ : Decision (wf σ).
Proof. unfold wf. apply _. Defined.

(** ** Counting writes *)

(** Number of [setValue] calls between two worlds. *)
Definition writes_between (σ σ' : world) : nat :=
  (length (trace σ') - length (trace σ))%nat.

(** Widgets of [T] that do not show [x] yet. *)
Fixpoint count_stale (m : gmap wid Qt.QAbstractSlider) (x : Z) (T : list wid) : nat :=
  match T with
  | [] => 0
  | t :: T' =>
      ((if decide (Qt.value <$> m !! t = Some x) then 0 else 1) + count_stale m x T')%nat
  end.

Definition can_show (m : gmap wid Qt.QAbstractSlider) (x : Z) (T : list wid) : Prop :=
  ∀ t, t ∈ T → ∃ q, m !! t = Some q ∧ Qt.minimum q ≤ x ≤ Qt.maximum q.

Definition syncs_to (σ : world) (T : list wid) (x : Z) (h : handler) (v : Z) : Prop :=
  match target σ h v with
  | Some (t, y) => t ∈ T ∧ y = x
  | None => True
  end.

(** From [σ] to [σ'] the widgets of [T] were synced to [x] by the writes
    [ws]: each write took one widget of [T] from another value to [x]. *)
Record synced_to (T : list wid) (x : Z) (σ σ' : world) (ws : list (wid * Z)) : Prop := SyncedTo {
  st_frame : engine_frame σ σ';
  st_can_show : can_show (widgets σ') x T;
  st_trace : trace σ' = ws ++ trace σ;
  st_writes : Forall (λ e, e.1 ∈ T ∧ e.2 = x) ws;
  st_count :
    (length ws + count_stale (widgets σ') x T)%nat = count_stale (widgets σ) x T;
  st_outside : ∀ w, w ∉ T → widgets σ' !! w = widgets σ !! w;
  st_stable : ∀ t, value_at σ t = Some x → value_at σ' t = Some x;
  st_quiet : ws = [] → widgets σ' = widgets σ
}.

(** ** Bound parameters *)

(** Widget [w] exists, has the range [lo..hi] and is at rest: its signals
    are not blocked. *)
Definition has_range (σ : world) (w : wid) (lo hi : Z) : Prop :=
  ∃ q, widgets σ !! w = Some q ∧ Qt.minimum q = lo ∧ Qt.maximum q = hi ∧
       Qt.signalsBlocked q = false.

(** Parameter [key] has the fine slider [s] and the coarse dials [ds], bound
    to it in this order by [_show_edit_preset] (one dial each time the edit
    page is opened); [knob_widget_map] may name one more knob. *)
Record bound (σ : world) (key : string) (s : wid) (ds : list wid) : Prop := Bound {
  bound_slider : has_range σ s 0 1000;
  bound_dials : ∀ d, d ∈ ds → has_range σ d 0 100;
  bound_distinct : NoDup (s :: ds);
  bound_slider_slots :
    ∃ l, connections σ !! s
         = Some (Signals
                   ([h_slider_label l; h_sync_controls key "slider"]
                    ++ ((λ d, h_slider_to_knob d key) <$> ds))
                   ((λ d, h_slider_to_knob d key) <$> ds));
  bound_dial_slots :
    ∀ d, d ∈ ds →
      ∃ l, connections σ !! d
           = Some (Signals [h_update; h_knob_to_slider s key; h_lcd l] []);
  bound_knob :
    ∀ k, knob_widget_map σ !! key = Some k → k ≠ s ∧ has_range σ k 0 100
}.

(** The widgets that represent parameter [key]. *)
Definition representations (σ : world) (key : string) (s : wid) (ds : list wid) : list wid :=
  s :: remove_dups (ds ++ option_list (knob_widget_map σ !! key)).

Definition live_representations (σ : world) (key : string) (s : wid) (ds : list wid) : nat :=
  length (representations σ key s ds).

(** [round(v / 10)], the knob value the specification asks for. *)
Definition round_tenth (v : Z) : Z := py_round (inject_Z v / 10).


(** ** Preset stores *)

(** The 24 slots in scan order: "1A", "1B", ..., "4F". *)
Definition grid : list string := rows ≫= λ r, pos_text r <$> cols.

(** The slots in use. *)
Definition used (ps : pydict preset) : gset string :=
  list_to_set (position <$> PyDict.values ps).


(** The name a save dialog yields from the text of its line. *)
Definition name_of (text : string) : string := strip (strip text).

(** The sliders of the main page, the three live value maps and, once a
    modulation page was opened, its knobs exist. *)
Definition ready (σ : world) : Prop :=
  Forall (λ e, is_Some (widgets σ !! e.1.2)) (slider_widgets σ) ∧
  (∀ b, is_Some (heap σ !! value_map b)) ∧
  (∀ ks b, knobs σ = Some ks →
           Forall (λ e, is_Some (widgets σ !! e.2)) (bank_get b ks)).

(** The three copies a save takes of the live value maps, and the heap with
    them. *)
Definition copies (h : gmap loc (gmap string Q)) : per_bank loc :=
  let lm := fresh (dom h) in
  let h1 := <[lm := default ∅ (h !! mod_value_map)]> h in
  let lb := fresh (dom h1) in
  let h2 := <[lb := default ∅ (h !! bic_value_map)]> h1 in
  let le := fresh (dom h2) in
  PerBank lm lb le.

Definition heap_with_copies (h : gmap loc (gmap string Q)) : gmap loc (gmap string Q) :=
  let c := copies h in
  <[of_ech c := default ∅ (h !! ech_value_map)]>
    (<[of_bic c := default ∅ (h !! bic_value_map)]>
       (<[of_mod c := default ∅ (h !! mod_value_map)]> h)).

(** The user changes one widget after the other. *)
Definition user_changes (fuel : nat) (cs : list (wid * Z)) : M unit :=
  for_each cs (λ c, user_change fuel true c.1 c.2).

(** Saving one preset after the other. *)
Fixpoint save_all (texts : list string) : M (list outcome) :=
  match texts with
  | [] => ret []
  | text :: texts' =>
      o <- _save_preset (Some text) ;;
      os <- save_all texts' ;;
      ret (o :: os)
  end.

(** What the store operations leave alone: the widgets, their connections
    and the shared values. *)
Record store_frame (σ σ' : world) : Prop := StoreFrame {
  sf_widgets : widgets σ' = widgets σ;
  sf_connections : connections σ' = connections σ;
  sf_trace : trace σ' = trace σ;
  sf_slider_widget_map : slider_widget_map σ' = slider_widget_map σ;
  sf_knob_widget_map : knob_widget_map σ' = knob_widget_map σ;
  sf_slider_label_map : slider_label_map σ' = slider_label_map σ;
  sf_preset_values : preset_values σ' = preset_values σ;
  sf_slider_widgets : slider_widgets σ' = slider_widgets σ;
  sf_knobs : knobs σ' = knobs σ;
  sf_main_title : main_title σ' = main_title σ;
  sf_pos_lbl : pos_lbl σ' = pos_lbl σ;
  sf_edit_title : edit_title σ' = edit_title σ;
  sf_bank_presets : bank_presets σ' = bank_presets σ;
  sf_bank_current_preset : bank_current_preset σ' = bank_current_preset σ;
  sf_heap : ∀ l, l ∈ dom (heap σ) → heap σ' !! l = heap σ !! l
}.

(** The values of the sliders, as a save collects them. *)
Definition slider_values_of (σ : world) (sw : list (string * wid * lid))
    (acc : gmap string Q) : gmap string Q :=
  foldl (λ acc e, <[e.1.1 := (inject_Z (default 0%Z (value_at σ e.1.2)) / 10)%Q]> acc) acc sw.

(** The values of a page's knobs, as a bank save collects them. *)
Definition knob_values_of (σ : world) (ks : pydict wid) (acc : gmap string Q) : gmap string Q :=
  foldl (λ acc e, <[e.1 := inject_Z (default 0 (value_at σ e.2))]> acc) acc ks.

(** ** Loading a preset *)

(** The sliders of the main page. *)
Definition slider_ids (σ : world) : list wid := (λ e, e.1.2) <$> slider_widgets σ.

(** A closure that writes neither to a widget of [S] nor to a live value
    map. *)
Definition quiet_for (σ : world) (S : list wid) (h : handler) : Prop :=
  match h with
  | h_value_map _ _ => False
  | _ => match target σ h 0 with Some (t, _) => t ∉ S | None => True end
  end.

#[global] Instance quiet_for_dec σ S h : Decision (quiet_for σ S h).
Proof.
  unfold quiet_for. destruct h; try (destruct (target σ _ 0) as [[t ?]|]); apply _.
Defined.

(** The sliders of the main page are distinct widgets, and no closure
    connected to one of them writes to one of them. *)
Definition sliders_apart (σ : world) : Prop :=
  NoDup (slider_ids σ) ∧
  Forall (λ s, Forall (quiet_for σ (slider_ids σ))
                 (from_option on_valueChanged [] (connections σ !! s)))
         (slider_ids σ).

(** [v] fits the C [int] of a Qt call. *)
Definition fits_c_int (v : Z) : Prop := - 2 ^ 31 ≤ v < 2 ^ 31.

(** [int(data["values"].get(n, 0) * 10)], what a load hands to the slider
    [n]. *)
Definition loaded_raw (data : preset) (n : string) : Z :=
  py_int (default 0%Q (values data !! n) * 10).

(** The values a preset holds for the unit [b]: [modulation.get(b, {})]. *)
Definition stored_modulation (σ : world) (data : preset) (b : bank) : gmap string Q :=
  default ∅ (modulation data ≫= λ c, heap σ !! bank_get b c).

(** [for k, v in vals.items(): m[k] = v] on the heap. *)
Definition merge_from (dst : loc) (src : option loc)
    (h : gmap loc (gmap string Q)) : gmap loc (gmap string Q) :=
  match src ≫= (λ l, h !! l) with
  | Some vals => alter (λ d, vals ∪ d) dst h
  | None => h
  end.

(** ** A running window *)

Definition empty_disk : filesystem := FS None (PerBank None None None).

Definition world_of {A} (r : res (A * world)) (σ0 : world) : world :=
  match r with Ok (_, σ) => σ | _ => σ0 end.

(** What [f] sees when [m] has run from [σ], if it ends normally. *)
Definition observe {A B} (m : M A) (f : A → world → B) (σ : world) : option B :=
  match m σ with Ok (a, σ') => Some (f a σ') | _ => None end.

(** The window started on an empty disk. *)
Definition fresh_window : world :=
  world_of ((SpringHallUI__init__ ;; _compose 1) (imported empty_disk))
    (imported empty_disk).

(** The window started on an empty disk, once the edit page and a modulation
    page have been opened.  Its DECAY slider is widget 0, bound to dial 6. *)
Definition main_window : world :=
  world_of
    ((SpringHallUI__init__ ;; _compose 1 ;; _show_edit_preset 1 ;;
      _show_dynamics_page 1) (imported empty_disk))
    (imported empty_disk).

(** The fresh window after the presets "A" and "B" were saved. *)
Definition two_presets : world :=
  world_of (save_all ["A"; "B"] fresh_window) fresh_window.
(** * Properties *)

(** ** Running computations *)

Lemma bind_ok {A B} (m : M A) (k : A → M B) σ a σ' :
  m σ = Ok (a, σ') → bind m k σ = k a σ'.
Proof. intros H. unfold bind. by rewrite H. Qed.

Lemma widget_ok w q σ : widgets σ !! w = Some q → widget w σ = Ok (q, σ).
Proof. intros H. unfold widget. by rewrite H. Qed.

Lemma value_of_ok w q σ : widgets σ !! w = Some q → value_of w σ = Ok (Qt.value q, σ).
Proof. intros H. unfold value_of. by rewrite (bind_ok _ _ _ _ _ (widget_ok _ _ _ H)). Qed.

Lemma blockSignals_ok w b q σ :
  widgets σ !! w = Some q →
  blockSignals w b σ = Ok (tt, set_widgets <[w := Qt.with_blocked b q]> σ).
Proof. intros H. unfold blockSignals. by rewrite (bind_ok _ _ _ _ _ (widget_ok _ _ _ H)). Qed.

Lemma qBound_id lo x hi : lo ≤ x ≤ hi → Qt.qBound lo x hi = x.
Proof. unfold Qt.qBound. lia. Qed.

Lemma qBound_range lo x hi : lo ≤ hi → lo ≤ Qt.qBound lo x hi ≤ hi.
Proof. unfold Qt.qBound. lia. Qed.

(** ** Sync-driven writes never emit *)

Section BlockedWrite.
Variable E : wid → Qt.signal → Z → M unit.

Lemma setValue_blocked t x q σ :
  widgets σ !! t = Some q → Qt.signalsBlocked q = true →
  setValue_with E t x σ
  = Ok (tt, set_trace (cons (t, x))
              (set_widgets <[t := Qt.with_value (Qt.qBound (Qt.minimum q) x (Qt.maximum q)) q]> σ)).
Proof.
  intros Hq Hb. unfold setValue_with.
  rewrite (bind_ok _ _ _ _ _ (widget_ok _ _ _ Hq)).
  unfold bind at 1. unfold modify at 1.
  destruct (decide _) as [Hv|Hv].
  - unfold ret. do 2 f_equal. unfold set_trace, set_widgets; cbn. f_equal.
    rewrite insert_id; [done|]. rewrite Hq. f_equal. destruct q; cbn in *. by subst.
  - unfold bind, modify. rewrite Hb. reflexivity.
Qed.

Lemma blocked_write t x q σ :
  widgets σ !! t = Some q →
  (blockSignals t true ;; setValue_with E t x ;; blockSignals t false) σ
  = Ok (tt, written t x q σ).
Proof.
  intros Hq.
  rewrite (bind_ok _ _ _ _ _ (blockSignals_ok _ true _ _ Hq)).
  erewrite bind_ok; last first.
  { apply setValue_blocked; [apply lookup_insert_eq|done]. }
  erewrite blockSignals_ok; last by apply lookup_insert_eq.
  unfold written, set_trace, set_widgets, synced; cbn.
  do 3 f_equal. by rewrite !insert_insert_eq.
Qed.

Lemma slider_to_knob_spec sv d key q σ :
  widgets σ !! d = Some q →
  slider_to_knob (setValue_with E) sv d key σ
  = Ok (tt, set_preset_values <[key := inject_Z (sv ÷ 10)]>
              (write_if_differs d (sv ÷ 10) q σ)).
Proof.
  intros Hq. unfold slider_to_knob.
  rewrite (bind_ok _ _ _ _ _ (value_of_ok _ _ _ Hq)).
  unfold write_if_differs. destruct (decide _).
  - erewrite bind_ok; [|by apply blocked_write]. done.
  - done.
Qed.

Lemma knob_to_slider_spec kv sl key q σ :
  widgets σ !! sl = Some q →
  knob_to_slider (setValue_with E) kv sl key σ
  = Ok (tt, set_preset_values <[key := inject_Z kv]>
              (write_if_differs sl (kv * 10) q σ)).
Proof.
  intros Hq. unfold knob_to_slider.
  rewrite (bind_ok _ _ _ _ _ (value_of_ok _ _ _ Hq)).
  unfold write_if_differs. destruct (decide _).
  - erewrite bind_ok; [|by apply blocked_write]. done.
  - done.
Qed.

Lemma sync_controls_slider_spec name v k q σ :
  knob_widget_map σ !! name = Some k →
  widgets σ !! k = Some q →
  sync_controls (setValue_with E) name v "slider" σ
  = Ok (tt, write_if_differs k (v / 10) q σ).
Proof.
  intros Hk Hq. unfold sync_controls. rewrite decide_True by done.
  unfold bind at 1, gets at 1. rewrite Hk.
  rewrite (bind_ok _ _ _ _ _ (value_of_ok _ _ _ Hq)).
  unfold write_if_differs. destruct (decide _); [by apply blocked_write|done].
Qed.

Lemma sync_controls_slider_unmapped name v σ :
  knob_widget_map σ !! name = None →
  sync_controls (setValue_with E) name v "slider" σ = Ok (tt, σ).
Proof.
  intros Hk. unfold sync_controls. rewrite decide_True by done.
  unfold bind at 1, gets at 1. by rewrite Hk.
Qed.

End BlockedWrite.
(** ** The frame of the sync engine *)

Lemma engine_frame_refl σ : engine_frame σ σ.
Proof. by constructor. Qed.

Lemma engine_frame_trans σ1 σ2 σ3 :
  engine_frame σ1 σ2 → engine_frame σ2 σ3 → engine_frame σ1 σ3.
Proof.
  intros H12 H23. constructor; intros.
  all: etrans; [by apply H23|by apply H12].
Qed.

Lemma engine_frame_widget σ t q q' :
  widgets σ !! t = Some q →
  Qt.minimum q' = Qt.minimum q → Qt.maximum q' = Qt.maximum q →
  engine_frame σ (set_widgets <[t := q']> σ).
Proof.
  intros Hq Hmin Hmax. constructor; try done; cbn; intros w.
  - destruct (decide (w = t)) as [->|]; [|by rewrite lookup_insert_ne].
    rewrite lookup_insert_eq, Hq. cbn. by f_equal.
  - destruct (decide (w = t)) as [->|]; [|by rewrite lookup_insert_ne].
    rewrite lookup_insert_eq, Hq. cbn. by f_equal.
Qed.

Lemma engine_frame_trace σ f : engine_frame σ (set_trace f σ).
Proof. by constructor. Qed.

Lemma engine_frame_labels σ f : engine_frame σ (set_labels f σ).
Proof. by constructor. Qed.

Lemma engine_frame_preset_values σ f : engine_frame σ (set_preset_values f σ).
Proof. by constructor. Qed.

Lemma engine_frame_value_map σ b f :
  engine_frame σ (set_heap (alter f (value_map b)) σ).
Proof.
  constructor; try done; cbn.
  - apply dom_alter_L.
  - intros l Hl. apply lookup_alter_ne. by apply not_eq_sym.
Qed.

Lemma engine_frame_written σ t x q :
  widgets σ !! t = Some q → engine_frame σ (written t x q σ).
Proof.
  intros Hq. unfold written.
  eapply engine_frame_trans; [|apply engine_frame_trace].
  by eapply engine_frame_widget.
Qed.

Lemma engine_frame_write_if_differs σ t x q :
  widgets σ !! t = Some q → engine_frame σ (write_if_differs t x q σ).
Proof.
  intros Hq. unfold write_if_differs. destruct (decide _).
  - by apply engine_frame_written.
  - apply engine_frame_refl.
Qed.

Lemma target_frame σ σ' h v :
  engine_frame σ σ' → target σ' h v = target σ h v.
Proof. intros []. destruct h; cbn; by rewrite ?ef_knob_widget_map0, ?ef_slider_widget_map0. Qed.

Lemma engine_frame_is_Some σ σ' w :
  engine_frame σ σ' → is_Some (widgets σ' !! w) ↔ is_Some (widgets σ !! w).
Proof.
  intros Hf. pose proof (ef_minimum _ _ Hf w) as H.
  rewrite <- !(fmap_is_Some Qt.minimum). by rewrite H.
Qed.

Lemma handler_ok_frame σ σ' h :
  engine_frame σ σ' → handler_ok σ h → handler_ok σ' h.
Proof.
  intros Hf. unfold handler_ok. rewrite (target_frame σ σ') by done.
  destruct (target σ h 0) as [[t ?]|]; [|done].
  by rewrite (engine_frame_is_Some σ σ').
Qed.

Lemma wf_frame σ σ' : engine_frame σ σ' → wf σ → wf σ'.
Proof.
  intros Hf Hwf. unfold wf in *. rewrite (ef_connections _ _ Hf).
  eapply map_Forall_impl; [done|]. cbn. intros _ c Hc.
  eapply Forall_impl; [done|]. intros h. by apply handler_ok_frame.
Qed.

Lemma target_widget σ h v t x :
  target σ h v = Some (t, x) → ∃ y, target σ h 0 = Some (t, y).
Proof.
  destruct h; cbn; try done.
  - destruct (decide _).
    + destruct (knob_widget_map σ !! n); cbn; [|done]. intros [= <- <-]. eauto.
    + destruct (decide _); [|done].
      destruct (slider_widget_map σ !! n); cbn; [|done]. intros [= <- <-]. eauto.
  - intros [= <- <-]. eauto.
  - intros [= <- <-]. eauto.
Qed.

Lemma handler_ok_target σ h :
  handler_ok σ h → ∀ v t x, target σ h v = Some (t, x) → is_Some (widgets σ !! t).
Proof.
  unfold handler_ok. intros Hok v t x Ht.
  destruct (target_widget _ _ _ _ _ Ht) as [y Hy]. by rewrite Hy in Hok.
Qed.

Lemma written_eq t x q σ :
  set_widgets
    <[t := Qt.with_blocked false
             (Qt.with_value (Qt.qBound (Qt.minimum (Qt.with_blocked true q)) x
                               (Qt.maximum (Qt.with_blocked true q)))
                (Qt.with_blocked true q))]>
    (set_trace (cons (t, x))
       (set_widgets
          <[t := Qt.with_value (Qt.qBound (Qt.minimum (Qt.with_blocked true q)) x
                                  (Qt.maximum (Qt.with_blocked true q)))
                   (Qt.with_blocked true q)]>
          (set_widgets <[t := Qt.with_blocked true q]> σ)))
  = written t x q σ.
Proof.
  unfold written, set_trace, set_widgets, synced; cbn.
  f_equal. by rewrite !insert_insert_eq.
Qed.

Section HandlerEffect.
Variable E : wid → Qt.signal → Z → M unit.

Lemma sync_controls_knob_spec name v s q σ :
  slider_widget_map σ !! name = Some s →
  widgets σ !! s = Some q →
  ∃ σ', sync_controls (setValue_with E) name v "knob" σ = Ok (tt, σ') ∧
        engine_frame σ σ' ∧
        widgets σ' = widgets (write_if_differs s (v * 10) q σ) ∧
        trace σ' = trace (write_if_differs s (v * 10) q σ) ∧
        preset_values σ' = preset_values σ.
Proof.
  intros Hs Hq. unfold sync_controls.
  rewrite decide_False by done. rewrite decide_True by done.
  unfold bind at 1, gets at 1. rewrite Hs.
  rewrite (bind_ok _ _ _ _ _ (value_of_ok _ _ _ Hq)).
  pose proof (engine_frame_write_if_differs σ s (v * 10) q Hq) as Hf.
  unfold write_if_differs in *. destruct (decide _).
  - rewrite (bind_ok _ _ _ _ _ (blockSignals_ok _ true _ _ Hq)).
    erewrite bind_ok; last first.
    { apply setValue_blocked; [apply lookup_insert_eq|done]. }
    erewrite bind_ok; last first.
    { apply blockSignals_ok. apply lookup_insert_eq. }
    rewrite written_eq.
    unfold bind, gets.
    destruct (slider_label_map (written s (v * 10) q σ) !! name); eexists;
      (split; [reflexivity|]); split_and!; try done.
    eapply engine_frame_trans; [done|]. apply engine_frame_labels.
  - eexists. split; [reflexivity|done].
Qed.

(** A closure ends normally, leaves the frame alone, and writes at most to
    its target. *)
Lemma run_handler_effect h v σ :
  handler_ok σ h →
  ∃ σ', run_handler (setValue_with E) h v σ = Ok (tt, σ') ∧
        engine_frame σ σ' ∧
        widgets σ' = widgets (target_effect σ h v) ∧
        trace σ' = trace (target_effect σ h v) ∧
        preset_values σ' = preset_effect h v (preset_values σ).
Proof.
  intros Hok. pose proof (handler_ok_target σ h Hok v) as Hex.
  unfold target_effect.
  destruct h as [|l|n source|sl key|d key|l|b n]; cbn [run_handler target] in *.
  - eexists. split; [reflexivity|]. split_and!; [apply engine_frame_refl|done..].
  - eexists. split; [reflexivity|]. split_and!; [apply engine_frame_labels|done..].
  - destruct (decide (source = "slider")) as [->|Hs].
    + destruct (knob_widget_map σ !! n) as [k|] eqn:Hk; cbn.
      * destruct (Hex k (v / 10) eq_refl) as [q Hq]. rewrite Hq.
        rewrite (sync_controls_slider_spec _ _ _ _ _ _ Hk Hq).
        eexists. split; [reflexivity|].
        split_and!; [by apply engine_frame_write_if_differs|done|done|].
        unfold write_if_differs. by destruct (decide _).
      * rewrite (sync_controls_slider_unmapped _ _ _ _ Hk).
        eexists. split; [reflexivity|]. split_and!; [apply engine_frame_refl|done..].
    + destruct (decide (source = "knob")) as [->|Hk].
      * destruct (slider_widget_map σ !! n) as [s|] eqn:Hsl; cbn.
        -- destruct (Hex s (v * 10) eq_refl) as [q Hq]. rewrite Hq.
           destruct (sync_controls_knob_spec n v s q σ Hsl Hq) as (σ'&->&?&?&?&?).
           eexists. split; [reflexivity|done].
        -- unfold sync_controls. rewrite decide_False by done.
           rewrite decide_True by done. unfold bind, gets. rewrite Hsl.
           eexists. split; [reflexivity|].
           split_and!; [apply engine_frame_refl|done..].
      * unfold sync_controls. rewrite !decide_False by done.
        eexists. split; [reflexivity|].
        split_and!; [apply engine_frame_refl|done..].
  - destruct (Hex sl (v * 10) eq_refl) as [q Hq]. rewrite Hq.
    rewrite (knob_to_slider_spec _ _ _ _ _ _ Hq).
    eexists. split; [reflexivity|]. split_and!; [|done|done|].
    + eapply engine_frame_trans; [by apply engine_frame_write_if_differs|].
      apply engine_frame_preset_values.
    + cbn. unfold write_if_differs. by destruct (decide _).
  - destruct (Hex d (v ÷ 10) eq_refl) as [q Hq]. rewrite Hq.
    rewrite (slider_to_knob_spec _ _ _ _ _ _ Hq).
    eexists. split; [reflexivity|]. split_and!; [|done|done|].
    + eapply engine_frame_trans; [by apply engine_frame_write_if_differs|].
      apply engine_frame_preset_values.
    + cbn. unfold write_if_differs. by destruct (decide _).
  - eexists. split; [reflexivity|]. split_and!; [apply engine_frame_labels|done..].
  - eexists. split; [reflexivity|]. split_and!; [apply engine_frame_value_map|done..].
Qed.

End HandlerEffect.
(** ** Counting the writes of an emission *)

Lemma count_stale_le m x T : (count_stale m x T ≤ length T)%nat.
Proof. induction T as [|t T IH]; cbn; [lia|]. destruct (decide _); lia. Qed.

Lemma count_stale_insert_notin m x T t q :
  t ∉ T → count_stale (<[t := q]> m) x T = count_stale m x T.
Proof.
  induction T as [|t' T IH]; intros Hn; cbn; [done|].
  apply not_elem_of_cons in Hn as [Hne Hn].
  rewrite lookup_insert_ne by done. by rewrite IH.
Qed.

Lemma count_stale_written m x T t q :
  NoDup T → t ∈ T → m !! t = Some q → Qt.value q ≠ x →
  Qt.minimum q ≤ x ≤ Qt.maximum q →
  S (count_stale (<[t := synced x q]> m) x T) = count_stale m x T.
Proof.
  intros Hnd Hin Hq Hne Hr.
  induction T as [|t' T IH]; [by apply elem_of_nil in Hin|].
  apply NoDup_cons in Hnd as [Hnotin Hnd]. cbn.
  destruct (decide (t' = t)) as [->|Hd].
  - rewrite lookup_insert_eq, Hq. cbn. rewrite qBound_id by done.
    rewrite decide_True by done. rewrite decide_False by congruence.
    by rewrite count_stale_insert_notin.
  - rewrite lookup_insert_ne by done.
    apply elem_of_cons in Hin as [->|Hin]; [done|].
    rewrite <- (IH Hnd Hin). destruct (decide _); lia.
Qed.

Lemma can_show_insert m x T t q q' :
  can_show m x T → m !! t = Some q →
  Qt.minimum q' = Qt.minimum q → Qt.maximum q' = Qt.maximum q →
  can_show (<[t := q']> m) x T.
Proof.
  intros Hc Hq Hmin Hmax t' Hin. destruct (decide (t' = t)) as [->|Hd].
  - exists q'. rewrite lookup_insert_eq. split; [done|].
    destruct (Hc t Hin) as (q0&Hq0&?). rewrite Hmin, Hmax. congruence.
  - rewrite lookup_insert_ne by done. by apply Hc.
Qed.

Lemma can_show_handler_ok σ T x h v :
  can_show (widgets σ) x T → syncs_to σ T x h v → handler_ok σ h.
Proof.
  intros Hc Hs. unfold handler_ok, syncs_to in *.
  destruct (target σ h 0) as [[t y]|] eqn:Ht; [|done].
  assert (∃ y', target σ h v = Some (t, y')) as [y' Hy'].
  { destruct h; cbn in *; try done.
    - destruct (decide _).
      + destruct (knob_widget_map σ !! n); cbn in *; [|done].
        injection Ht as <- <-. eauto.
      + destruct (decide _); [|done].
        destruct (slider_widget_map σ !! n); cbn in *; [|done].
        injection Ht as <- <-. eauto.
    - injection Ht as <- <-. eauto.
    - injection Ht as <- <-. eauto. }
  rewrite Hy' in Hs. destruct Hs as [Hin _].
  destruct (Hc t Hin) as (q&Hq&_). by exists q.
Qed.

Lemma synced_to_refl T x σ : can_show (widgets σ) x T → synced_to T x σ σ [].
Proof. intros Hc. constructor; first [done|apply engine_frame_refl]. Qed.

Lemma synced_to_trans T x σ1 σ2 σ3 ws1 ws2 :
  synced_to T x σ1 σ2 ws1 → synced_to T x σ2 σ3 ws2 →
  synced_to T x σ1 σ3 (ws2 ++ ws1).
Proof.
  intros H12 H23. constructor.
  - eapply engine_frame_trans; [apply H12|apply H23].
  - apply H23.
  - by rewrite (st_trace _ _ _ _ _ H23), (st_trace _ _ _ _ _ H12), (assoc_L (++)).
  - apply Forall_app. split; [apply H23|apply H12].
  - rewrite length_app. pose proof (st_count _ _ _ _ _ H12).
    pose proof (st_count _ _ _ _ _ H23). lia.
  - intros w Hw. rewrite (st_outside _ _ _ _ _ H23) by done. by apply H12.
  - intros t Ht. apply H23. by apply H12.
  - intros [-> ->]%app_eq_nil.
    rewrite (st_quiet _ _ _ _ _ H23) by done. by apply H12.
Qed.

(** Storing the value the user chose in a widget outside [T]. *)
Lemma synced_to_widget T x σ w q q' :
  can_show (widgets σ) x T → w ∉ T → widgets σ !! w = Some q →
  Qt.minimum q' = Qt.minimum q → Qt.maximum q' = Qt.maximum q →
  engine_frame σ (set_widgets <[w := q']> σ) ∧
  can_show (widgets (set_widgets <[w := q']> σ)) x T ∧
  count_stale (widgets (set_widgets <[w := q']> σ)) x T = count_stale (widgets σ) x T.
Proof.
  intros Hc Hw Hq Hmin Hmax. split_and!.
  - by eapply engine_frame_widget.
  - intros t Hin. cbn. rewrite lookup_insert_ne; [by apply Hc|]. by intros ->.
  - cbn. by apply count_stale_insert_notin.
Qed.

Section Potential.
Variable E : wid → Qt.signal → Z → M unit.
Variables (T : list wid) (x v : Z).
Hypothesis T_nodup : NoDup T.

Lemma run_handler_synced h σ :
  can_show (widgets σ) x T →
  syncs_to σ T x h v →
  ∃ σ' ws, run_handler (setValue_with E) h v σ = Ok (tt, σ') ∧
        synced_to T x σ σ' ws ∧
        preset_values σ' = preset_effect h v (preset_values σ) ∧
        (∀ t y, target σ h v = Some (t, y) → value_at σ' t = Some x).
Proof using T_nodup.
  intros Hc Hs.
  destruct (run_handler_effect E h v σ) as (σ'&Hrun&Hf&Hw&Htr&Hpv).
  { by eapply can_show_handler_ok. }
  unfold syncs_to in Hs. unfold target_effect in *.
  destruct (target σ h v) as [[t y]|].
  - destruct Hs as [Hin ->]. destruct (Hc t Hin) as (q&Hq&Hr). rewrite Hq in *.
    unfold write_if_differs in *. destruct (decide _) as [Hne|Heq].
    + exists σ', [(t, x)]. split_and!; [done| |done|].
      * constructor; unfold value_at; rewrite ?Hw, ?Htr; cbn; try done.
        -- by eapply can_show_insert.
        -- by repeat constructor.
        -- by rewrite (count_stale_written (widgets σ) x T t q).
        -- intros w Hw'. rewrite lookup_insert_ne; [done|]. by intros ->.
        -- intros t'. destruct (decide (t' = t)) as [->|].
           ++ rewrite lookup_insert_eq. cbn. by rewrite qBound_id.
           ++ by rewrite lookup_insert_ne.
      * intros t' y' [= <- <-]. unfold value_at. rewrite Hw. cbn.
        rewrite lookup_insert_eq. cbn. by rewrite qBound_id.
    + exists σ', []. split_and!; [done| |done|].
      * constructor; unfold value_at; rewrite ?Hw, ?Htr; try done.
      * intros t' y' [= <- <-]. unfold value_at. rewrite Hw, Hq. cbn.
        f_equal. by destruct (decide (Qt.value q = x)).
  - exists σ', []. split_and!; [done| |done|done].
    constructor; unfold value_at; rewrite ?Hw, ?Htr; try done.
Qed.

Lemma for_each_synced hs σ :
  can_show (widgets σ) x T →
  (∀ h, h ∈ hs → syncs_to σ T x h v) →
  ∃ σ' ws, for_each hs (λ h, run_handler (setValue_with E) h v) σ = Ok (tt, σ') ∧
        synced_to T x σ σ' ws ∧
        preset_values σ' = foldl (λ pv h, preset_effect h v pv) (preset_values σ) hs ∧
        (∀ h t y, h ∈ hs → target σ h v = Some (t, y) → value_at σ' t = Some x).
Proof using T_nodup.
  revert σ. induction hs as [|h hs IH]; intros σ Hc Hs.
  - exists σ, []. split_and!; [done|by apply synced_to_refl|done|].
    intros h t y Hin. by apply elem_of_nil in Hin.
  - destruct (run_handler_synced h σ Hc) as (σ1&ws1&Hrun&Hst1&Hpv1&Hr1).
    { apply Hs. by left. }
    destruct (IH σ1 (st_can_show _ _ _ _ _ Hst1)) as (σ2&ws2&Hrun2&Hst2&Hpv2&Hr2).
    { intros h' Hin. unfold syncs_to.
      rewrite (target_frame σ σ1) by apply Hst1. apply Hs. by right. }
    exists σ2, (ws2 ++ ws1). cbn [for_each foldl]. rewrite (bind_ok _ _ _ _ _ Hrun).
    split_and!; [done|by eapply synced_to_trans|by rewrite Hpv2, Hpv1|].
    intros h' t y [->|Hin]%elem_of_cons Ht.
    + apply (st_stable _ _ _ _ _ Hst2). by eapply Hr1.
    + eapply Hr2; [done|]. by rewrite (target_frame σ σ1) by apply Hst1.
Qed.

End Potential.

Lemma emit_unfold fuel w sg v σ :
  emit (S fuel) w sg v σ
  = for_each (from_option (slots sg) [] (connections σ !! w))
      (λ h, run_handler (setValue_with (emit fuel)) h v) σ.
Proof. reflexivity. Qed.
(** The user's change of a widget whose closures sync the widgets of [T] to
    [x]: it ends, and writes each of them at most once. *)
Lemma user_change_potential fuel pressed w v σ q T x :
  widgets σ !! w = Some q →
  NoDup T → w ∉ T → can_show (widgets σ) x T →
  (∀ sg h, h ∈ from_option (slots sg) [] (connections σ !! w) →
           syncs_to σ T x h (Qt.qBound (Qt.minimum q) v (Qt.maximum q))) →
  ∃ σ' ws, user_change (S fuel) pressed w v σ = Ok (tt, σ') ∧
           engine_frame σ σ' ∧
           trace σ' = ws ++ trace σ ∧
           (length ws ≤ length T)%nat.
Proof.
  intros Hq Hnd Hw Hc Hs. unfold user_change.
  rewrite (bind_ok _ _ _ _ _ (widget_ok _ _ _ Hq)).
  set (v' := Qt.qBound _ _ _) in *.
  destruct (decide _) as [Heq|Hne].
  { exists σ, []. split_and!; [done|apply engine_frame_refl|done|cbn; lia]. }
  (* sliderMoved *)
  assert (∃ σa wsa,
    (if pressed && negb (Qt.signalsBlocked q) then emit (S fuel) w Qt.sliderMoved v'
     else ret tt) σ = Ok (tt, σa) ∧ synced_to T x σ σa wsa)
    as (σa&wsa&Hrun_a&Hsa).
  { destruct (pressed && negb (Qt.signalsBlocked q)).
    - rewrite emit_unfold.
      destruct (for_each_synced (emit fuel) T x v' Hnd
                  (from_option (slots Qt.sliderMoved) [] (connections σ !! w)) σ Hc)
        as (σa&wsa&?&?&_); [intros h; apply Hs|]. by exists σa, wsa.
    - exists σ, []. split; [done|by apply synced_to_refl]. }
  rewrite (bind_ok _ _ _ _ _ Hrun_a).
  pose proof (st_frame _ _ _ _ _ Hsa) as Hfa.
  (* the value is stored *)
  destruct (proj2 (engine_frame_is_Some σ σa w Hfa)) as [qa Hqa]; [by eexists|].
  rewrite (bind_ok _ _ _ _ _ (widget_ok _ _ _ Hqa)).
  unfold bind at 1, modify at 1.
  destruct (synced_to_widget T x σa w qa (Qt.with_value v' qa)
              (st_can_show _ _ _ _ _ Hsa) Hw Hqa eq_refl eq_refl) as (Hfb&Hcb&Hpb).
  set (σb := set_widgets _ σa) in *.
  pose proof (count_stale_le (widgets σ) x T) as Hle.
  pose proof (st_count _ _ _ _ _ Hsa) as Hcount_a.
  (* valueChanged *)
  destruct (Qt.signalsBlocked qa).
  { exists σb, wsa. split_and!; [done| |by rewrite <- (st_trace _ _ _ _ _ Hsa)|lia].
    by eapply engine_frame_trans. }
  rewrite emit_unfold.
  destruct (for_each_synced (emit fuel) T x v' Hnd
              (from_option (slots Qt.valueChanged) [] (connections σb !! w)) σb Hcb)
    as (σc&wsc&Hrun_c&Hsc&_).
  { intros h Hin. unfold syncs_to.
    rewrite (target_frame σ σb) by (by eapply engine_frame_trans).
    apply (Hs Qt.valueChanged).
    by rewrite <- (ef_connections _ _ Hfa), <- (ef_connections _ _ Hfb). }
  exists σc, (wsc ++ wsa). split_and!; [done| | |].
  - eapply engine_frame_trans; [|apply Hsc]. by eapply engine_frame_trans.
  - rewrite (st_trace _ _ _ _ _ Hsc). cbn.
    by rewrite (st_trace _ _ _ _ _ Hsa), (assoc_L (++)).
  - rewrite length_app. pose proof (st_count _ _ _ _ _ Hsc). lia.
Qed.
(** ** C4: a change of one representation ends after a bounded number of
    writes *)

Lemma bound_targets_range σ key s ds t :
  bound σ key s ds →
  t ∈ remove_dups (ds ++ option_list (knob_widget_map σ !! key)) →
  t ≠ s ∧ has_range σ t 0 100.
Proof.
  intros Hb Hin. apply elem_of_remove_dups, elem_of_app in Hin as [Hin|Hin].
  - split; [|by apply (bound_dials _ _ _ _ Hb)].
    pose proof (bound_distinct _ _ _ _ Hb) as Hnd.
    apply NoDup_cons in Hnd as [Hs _]. by intros ->.
  - destruct (knob_widget_map σ !! key) as [k|] eqn:Hk; cbn in Hin.
    + apply list_elem_of_singleton in Hin as ->. by apply (bound_knob _ _ _ _ Hb).
    + by apply elem_of_nil in Hin.
Qed.

Lemma slider_change_bounded fuel pressed σ key s ds v :
  bound σ key s ds →
  ∃ σ' ws, user_change (S fuel) pressed s v σ = Ok (tt, σ') ∧
           engine_frame σ σ' ∧
           trace σ' = ws ++ trace σ ∧
           (length ws ≤ length (remove_dups (ds ++ option_list (knob_widget_map σ !! key))))%nat.
Proof.
  intros Hb. destruct (bound_slider _ _ _ _ Hb) as (q&Hq&Hmin&Hmax&_).
  set (T := remove_dups _).
  set (v' := Qt.qBound (Qt.minimum q) v (Qt.maximum q)).
  assert (0 ≤ v' ≤ 1000) as Hv'.
  { subst v'. rewrite Hmin, Hmax. by apply qBound_range. }
  apply (user_change_potential fuel pressed s v σ q T (v' ÷ 10)); [done| | | |].
  - apply NoDup_remove_dups.
  - intros Hin. by destruct (bound_targets_range _ _ _ _ _ Hb Hin).
  - intros t Hin. destruct (bound_targets_range _ _ _ _ _ Hb Hin) as [_ (qt&Hqt&Hlo&Hhi&_)].
    exists qt. split; [done|]. rewrite Hlo, Hhi.
    split; [apply Z.quot_pos; lia|]. apply Z.quot_le_upper_bound; lia.
  - fold v'. intros sg h Hin.
    destruct (bound_slider_slots _ _ _ _ Hb) as [l Hc]. rewrite Hc in Hin. cbn in Hin.
    assert (h = h_slider_label l ∨ h = h_sync_controls key "slider" ∨
            ∃ d, d ∈ ds ∧ h = h_slider_to_knob d key) as Hh.
    { destruct sg; cbn in Hin.
      - apply elem_of_cons in Hin as [->|Hin]; [by left|].
        apply elem_of_cons in Hin as [->|Hin]; [by right; left|].
        apply list_elem_of_fmap in Hin as (d&->&Hd). right; right. eauto.
      - apply list_elem_of_fmap in Hin as (d&->&Hd). right; right. eauto. }
    unfold syncs_to. destruct Hh as [->|[->|(d&Hd&->)]]; cbn.
    + done.
    + destruct (knob_widget_map σ !! key) as [k|] eqn:Hk; cbn; [|done].
      split.
      * subst T. apply elem_of_remove_dups, elem_of_app. right. by left.
      * symmetry. apply Z.quot_div_nonneg; lia.
    + split; [|done]. subst T. apply elem_of_remove_dups, elem_of_app. by left.
Qed.

Lemma dial_change_bounded fuel pressed σ key s ds d v :
  bound σ key s ds → d ∈ ds →
  ∃ σ' ws, user_change (S fuel) pressed d v σ = Ok (tt, σ') ∧
           engine_frame σ σ' ∧
           trace σ' = ws ++ trace σ ∧
           (length ws ≤ 1)%nat.
Proof.
  intros Hb Hd. destruct (bound_dials _ _ _ _ Hb d Hd) as (q&Hq&Hmin&Hmax&_).
  destruct (bound_slider _ _ _ _ Hb) as (qs&Hqs&Hsmin&Hsmax&_).
  set (v' := Qt.qBound (Qt.minimum q) v (Qt.maximum q)).
  assert (0 ≤ v' ≤ 100) as Hv'.
  { subst v'. rewrite Hmin, Hmax. by apply qBound_range. }
  assert (d ≠ s) as Hds.
  { pose proof (bound_distinct _ _ _ _ Hb) as Hnd.
    apply NoDup_cons in Hnd as [Hs _]. by intros ->. }
  apply (user_change_potential fuel pressed d v σ q [s] (v' * 10)); [done| | | |].
  - apply NoDup_singleton.
  - by intros ->%list_elem_of_singleton.
  - intros t ->%list_elem_of_singleton. exists qs. split; [done|]. lia.
  - fold v'. intros sg h Hin.
    destruct (bound_dial_slots _ _ _ _ Hb d Hd) as [l Hc]. rewrite Hc in Hin.
    unfold syncs_to. destruct sg; cbn in Hin.
    + apply elem_of_cons in Hin as [->|Hin]; [done|].
      apply elem_of_cons in Hin as [->|Hin]; [cbn; split; [by left|done]|].
      apply list_elem_of_singleton in Hin as ->. done.
    + by apply elem_of_nil in Hin.
Qed.

(** C4.  After a single external change [v] of one representation [w] of a
    bound parameter (its slider [s] or one of its dials [ds]), the
    synchronisation ends - any fuel from 1 on suffices, since a sync-driven
    write is made with the target's signals blocked and never emits - and it
    calls [setValue] on the other representations at most (number of live
    representations - 1) times. *)
Theorem sync_terminates_with_bounded_writes fuel pressed σ key s ds w v :
  bound σ key s ds → w ∈ s :: ds → (1 ≤ fuel)%nat →
  ∃ σ' ws, user_change fuel pressed w v σ = Ok (tt, σ') ∧
           trace σ' = ws ++ trace σ ∧
           (length ws ≤ live_representations σ key s ds - 1)%nat.
Proof.
  intros Hb Hw Hfuel. destruct fuel as [|fuel]; [lia|].
  unfold live_representations, representations. cbn [length].
  rewrite Nat.sub_1_r, Nat.pred_succ.
  apply elem_of_cons in Hw as [->|Hd].
  - destruct (slider_change_bounded fuel pressed σ key s ds v Hb) as (σ'&ws&?&?&?&?).
    by exists σ', ws.
  - destruct (dial_change_bounded fuel pressed σ key s ds w v Hb Hd) as (σ'&ws&?&?&?&Hle).
    exists σ', ws. split_and!; [done..|].
    etrans; [done|].
    assert (w ∈ remove_dups (ds ++ option_list (knob_widget_map σ !! key))) as Hin.
    { apply elem_of_remove_dups, elem_of_app. by left. }
    destruct (remove_dups _); [by apply elem_of_nil in Hin|cbn; lia].
Qed.
Lemma emit_synced fuel w sg v σ T x :
  NoDup T → can_show (widgets σ) x T →
  (∀ h, h ∈ from_option (slots sg) [] (connections σ !! w) → syncs_to σ T x h v) →
  ∃ σ' ws, emit (S fuel) w sg v σ = Ok (tt, σ') ∧
        synced_to T x σ σ' ws ∧
        preset_values σ'
        = foldl (λ pv h, preset_effect h v pv) (preset_values σ)
            (from_option (slots sg) [] (connections σ !! w)) ∧
        (∀ h t y, h ∈ from_option (slots sg) [] (connections σ !! w) →
                  target σ h v = Some (t, y) → value_at σ' t = Some x).
Proof. intros Hnd Hc Hs. rewrite emit_unfold. by apply for_each_synced. Qed.

(** When every widget of [T] shows [x] already, nothing is written. *)
Lemma synced_to_quiet T x σ σ' ws :
  synced_to T x σ σ' ws → count_stale (widgets σ) x T = 0%nat →
  ws = [] ∧ widgets σ' = widgets σ ∧ trace σ' = trace σ.
Proof.
  intros Hs H0. pose proof (st_count _ _ _ _ _ Hs) as Hc.
  assert (ws = []) as -> by (destruct ws; [done|cbn in Hc; lia]).
  split_and!; [done|by apply (st_quiet _ _ _ _ _ Hs)|apply (st_trace _ _ _ _ _ Hs)].
Qed.

Lemma count_stale_singleton σ x t :
  count_stale (widgets σ) x [t] = if decide (value_at σ t = Some x) then 0%nat else 1%nat.
Proof. cbn. unfold value_at. destruct (decide _); lia. Qed.

(** A single stale widget is written exactly once. *)
Lemma synced_to_single x t σ σ' ws :
  synced_to [t] x σ σ' ws → value_at σ t ≠ Some x → value_at σ' t = Some x →
  ws = [(t, x)].
Proof.
  intros Hs Hne Heq. pose proof (st_count _ _ _ _ _ Hs) as Hc.
  rewrite !count_stale_singleton in Hc.
  rewrite decide_True in Hc by done. rewrite decide_False in Hc by done.
  pose proof (st_writes _ _ _ _ _ Hs) as Hw.
  destruct ws as [|[t' y] [|? ?]]; cbn in Hc; try lia.
  apply Forall_cons in Hw as [[Ht Hy] _]. cbn in *.
  apply list_elem_of_singleton in Ht. by subst.
Qed.

(** The user's change of a widget at rest, in detail. *)
Lemma user_change_synced fuel pressed w v σ q T x :
  widgets σ !! w = Some q →
  Qt.signalsBlocked q = false →
  let v' := Qt.qBound (Qt.minimum q) v (Qt.maximum q) in
  Qt.value q ≠ v' →
  NoDup T → w ∉ T → can_show (widgets σ) x T →
  (∀ sg h, h ∈ from_option (slots sg) [] (connections σ !! w) → syncs_to σ T x h v') →
  ∃ σ', user_change (S fuel) pressed w v σ = Ok (tt, σ') ∧
        engine_frame σ σ' ∧
        can_show (widgets σ') x T ∧
        widgets σ' !! w = Some (Qt.with_value v' q) ∧
        (∀ u, u ∉ T → u ≠ w → widgets σ' !! u = widgets σ !! u) ∧
        (∀ h t y, h ∈ from_option (slots Qt.valueChanged) [] (connections σ !! w) →
                  target σ h v' = Some (t, y) → value_at σ' t = Some x) ∧
        preset_values σ'
        = foldl (λ pv h, preset_effect h v' pv)
            (foldl (λ pv h, preset_effect h v' pv) (preset_values σ)
               (if pressed then from_option (slots Qt.sliderMoved) [] (connections σ !! w)
                else []))
            (from_option (slots Qt.valueChanged) [] (connections σ !! w)).
Proof.
  intros Hq Hunb v' Hne Hnd Hw Hc Hs. unfold user_change.
  rewrite (bind_ok _ _ _ _ _ (widget_ok _ _ _ Hq)). fold v'.
  rewrite decide_False by done. rewrite Hunb, andb_true_r.
  assert (∃ σa wsa,
    (if pressed then emit (S fuel) w Qt.sliderMoved v' else ret tt) σ = Ok (tt, σa) ∧
    synced_to T x σ σa wsa ∧
    preset_values σa
    = foldl (λ pv h, preset_effect h v' pv) (preset_values σ)
        (if pressed then from_option (slots Qt.sliderMoved) [] (connections σ !! w)
         else []))
    as (σa&wsa&Hrun_a&Hsa&Hpva).
  { destruct pressed.
    - destruct (emit_synced fuel w Qt.sliderMoved v' σ T x Hnd Hc) as (σa&wsa&?&?&?&_);
        [intros h; apply Hs|]. by exists σa, wsa.
    - exists σ, []. split_and!; [done|by apply synced_to_refl|done]. }
  rewrite (bind_ok _ _ _ _ _ Hrun_a).
  pose proof (st_frame _ _ _ _ _ Hsa) as Hfa.
  assert (widgets σa !! w = Some q) as Hqa.
  { by rewrite (st_outside _ _ _ _ _ Hsa). }
  rewrite (bind_ok _ _ _ _ _ (widget_ok _ _ _ Hqa)).
  unfold bind at 1, modify at 1.
  destruct (synced_to_widget T x σa w q (Qt.with_value v' q)
              (st_can_show _ _ _ _ _ Hsa) Hw Hqa eq_refl eq_refl) as (Hfb&Hcb&Hpb).
  set (σb := set_widgets _ σa) in *.
  assert (engine_frame σ σb) as Hfab by (by eapply engine_frame_trans).
  rewrite Hunb.
  assert (connections σb !! w = connections σ !! w) as Hcw.
  { by rewrite (ef_connections _ _ Hfab). }
  destruct (emit_synced fuel w Qt.valueChanged v' σb T x Hnd Hcb)
    as (σc&wsc&Hrun_c&Hsc&Hpvc&Hrc).
  { intros h Hin. unfold syncs_to. rewrite (target_frame σ σb) by done.
    apply (Hs Qt.valueChanged). by rewrite <- Hcw. }
  exists σc. split_and!; [done| | | | | |].
  - eapply engine_frame_trans; [done|apply Hsc].
  - apply Hsc.
  - rewrite (st_outside _ _ _ _ _ Hsc) by done. cbn. apply lookup_insert_eq.
  - intros u Hu Huw. rewrite (st_outside _ _ _ _ _ Hsc) by done. cbn.
    rewrite lookup_insert_ne by done. by apply Hsa.
  - intros h t y Hin Ht. eapply Hrc; [by rewrite Hcw|].
    by rewrite (target_frame σ σb).
  - rewrite Hpvc, Hcw. f_equal. done.
Qed.
(** ** C1: what a propagation writes, and when propagating back is a no-op *)

Lemma bound_dial_neq σ key s ds d : bound σ key s ds → d ∈ ds → d ≠ s.
Proof.
  intros Hb Hd. pose proof (bound_distinct _ _ _ _ Hb) as Hnd.
  apply NoDup_cons in Hnd as [Hs _]. by intros ->.
Qed.

Lemma dial_slots_sync σ key s d l v sg h :
  connections σ !! d = Some (Signals [h_update; h_knob_to_slider s key; h_lcd l] []) →
  h ∈ from_option (slots sg) [] (connections σ !! d) →
  syncs_to σ [s] (v * 10) h v.
Proof.
  intros Hc Hin. rewrite Hc in Hin. unfold syncs_to. destruct sg; cbn in Hin.
  - apply elem_of_cons in Hin as [->|Hin]; [done|].
    apply elem_of_cons in Hin as [->|Hin]; [cbn; split; [by left|done]|].
    by apply list_elem_of_singleton in Hin as ->.
  - by apply elem_of_nil in Hin.
Qed.

Lemma slider_slots_sync σ key s d l v sg h :
  connections σ !! s
  = Some (Signals [h_slider_label l; h_sync_controls key "slider"; h_slider_to_knob d key]
                  [h_slider_to_knob d key]) →
  (∀ k, knob_widget_map σ !! key = Some k → k = d) →
  0 ≤ v →
  h ∈ from_option (slots sg) [] (connections σ !! s) →
  syncs_to σ [d] (v ÷ 10) h v.
Proof.
  intros Hc Hk Hv Hin. rewrite Hc in Hin. unfold syncs_to.
  assert (h = h_slider_label l ∨ h = h_sync_controls key "slider" ∨
          h = h_slider_to_knob d key) as [->|[->| ->]].
  { destruct sg; cbn in Hin.
    - apply elem_of_cons in Hin as [->|Hin]; [by left|].
      apply elem_of_cons in Hin as [->|Hin]; [by right; left|].
      apply list_elem_of_singleton in Hin as ->. by right; right.
    - apply list_elem_of_singleton in Hin as ->. by right; right. }
  - done.
  - cbn. destruct (knob_widget_map σ !! key) as [k|] eqn:Hkm; cbn; [|done].
    rewrite (Hk k eq_refl). split; [by left|]. symmetry. by apply Z.quot_div_nonneg.
  - cbn. split; [by left|done].
Qed.

Lemma count_stale_shown σ x t :
  value_at σ t = Some x → count_stale (widgets σ) x [t] = 0%nat.
Proof. intros H. rewrite count_stale_singleton. by rewrite decide_True. Qed.

(** C1 (amended).  For a parameter bound to one knob [d] (0..100) and one
    slider [s] (0..1000): a knob change [kv] sets the slider to [kv * 10],
    and propagating back from the slider writes nothing; a slider change [v]
    sets the knob to [v ÷ 10], the quotient truncated and not rounded, and
    propagating back from the knob writes nothing exactly when [v] is a
    multiple of 10 - otherwise it resets the slider to [v ÷ 10 * 10], which
    is why the sync-driven write is made with signals blocked. *)
Theorem propagate_truncates_and_settles fuel pressed σ key s d :
  bound σ key s [d] →
  (∀ k, knob_widget_map σ !! key = Some k → k = d) →
  (1 ≤ fuel)%nat →
  (∀ kv, 0 ≤ kv ≤ 100 → value_at σ d ≠ Some kv →
     ∃ σ1, user_change fuel pressed d kv σ = Ok (tt, σ1) ∧
           value_at σ1 d = Some kv ∧ value_at σ1 s = Some (kv * 10) ∧
           ∃ σ2, propagate fuel s σ1 = Ok (tt, σ2) ∧
                 widgets σ2 = widgets σ1 ∧ trace σ2 = trace σ1 ∧
                 preset_values σ2 = preset_values σ1) ∧
  (∀ v, 0 ≤ v ≤ 1000 → value_at σ s ≠ Some v →
     ∃ σ1, user_change fuel pressed s v σ = Ok (tt, σ1) ∧
           value_at σ1 s = Some v ∧ value_at σ1 d = Some (v ÷ 10) ∧
           ∃ σ2, propagate fuel d σ1 = Ok (tt, σ2) ∧
                 value_at σ2 d = Some (v ÷ 10) ∧
                 value_at σ2 s = Some (v ÷ 10 * 10) ∧
                 (v mod 10 = 0 →
                    widgets σ2 = widgets σ1 ∧ trace σ2 = trace σ1 ∧
                    preset_values σ2 = preset_values σ1) ∧
                 (v mod 10 ≠ 0 → trace σ2 = (s, v ÷ 10 * 10) :: trace σ1)).
Proof.
  intros Hb Hk Hfuel. destruct fuel as [|fuel]; [lia|].
  assert (d ∈ [d]) as Hd by (by left).
  destruct (bound_slider _ _ _ _ Hb) as (qs&Hqs&Hsmin&Hsmax&Hsunb).
  destruct (bound_dials _ _ _ _ Hb d Hd) as (qd&Hqd&Hdmin&Hdmax&Hdunb).
  destruct (bound_slider_slots _ _ _ _ Hb) as [ls Hcs]. cbn in Hcs.
  destruct (bound_dial_slots _ _ _ _ Hb d Hd) as [ld Hcd].
  pose proof (bound_dial_neq _ _ _ _ _ Hb Hd) as Hds.
  assert (d ∉ [s]) as Hd_s by (by intros ->%list_elem_of_singleton).
  assert (s ∉ [d]) as Hs_d by (by intros ->%list_elem_of_singleton).
  split.
  - (* a knob change *)
    intros kv Hkv Hne.
    assert (Qt.qBound (Qt.minimum qd) kv (Qt.maximum qd) = kv) as Hb_kv.
    { rewrite Hdmin, Hdmax. by apply qBound_id. }
    destruct (user_change_synced fuel pressed d kv σ qd [s] (kv * 10) Hqd Hdunb)
      as (σ1&Hrun&Hf1&Hc1&Hd1&Hout1&Hr1&Hpv1).
    { rewrite Hb_kv. intros Heq. apply Hne. unfold value_at. by rewrite Hqd, <- Heq. }
    { apply NoDup_singleton. }
    { done. }
    { intros t ->%list_elem_of_singleton. exists qs. split; [done|lia]. }
    { rewrite Hb_kv. intros sg h. by apply (dial_slots_sync σ key s d ld). }
    rewrite Hb_kv in *. rewrite Hcd in *. cbn in Hpv1.
    assert (preset_values σ1 = <[key := inject_Z kv]> (preset_values σ)) as Hpv1'.
    { rewrite Hpv1. by destruct pressed. }
    assert (value_at σ1 s = Some (kv * 10)) as Hs1.
    { apply (Hr1 (h_knob_to_slider s key) s (kv * 10)); [|done]. cbn. right. by left. }
    assert (value_at σ1 d = Some kv) as Hd1'.
    { unfold value_at. by rewrite Hd1. }
    exists σ1. split_and!; [done..|].
    (* propagating back from the slider *)
    unfold value_at in Hs1.
    destruct (widgets σ1 !! s) as [qs1|] eqn:Hqs1; [|done]. injection Hs1 as Hs1.
    assert (can_show (widgets σ1) kv [d]) as Hcd1.
    { intros t ->%list_elem_of_singleton. eexists. split; [done|]. cbn. lia. }
    assert (connections σ1 !! s = connections σ !! s) as Hcs1
      by (by rewrite (ef_connections _ _ Hf1)).
    assert (∀ sg h, h ∈ from_option (slots sg) [] (connections σ1 !! s) →
                    syncs_to σ1 [d] kv h (kv * 10)) as Hsync.
    { intros sg h Hin. rewrite <- (Z.quot_mul kv 10) at 1 by lia.
      apply (slider_slots_sync σ1 key s d ls _ sg); [by rewrite Hcs1| |lia|done].
      by rewrite (ef_knob_widget_map _ _ Hf1). }
    unfold propagate. rewrite (bind_ok _ _ _ _ _ (value_of_ok _ _ _ Hqs1)). rewrite Hs1.
    destruct (emit_synced fuel s Qt.sliderMoved (kv * 10) σ1 [d] kv
                (NoDup_singleton _) Hcd1 (Hsync _))
      as (σa&wsa&Hrun_a&Hsa&Hpva&_).
    rewrite (bind_ok _ _ _ _ _ Hrun_a).
    destruct (synced_to_quiet _ _ _ _ _ Hsa) as (_&Hwa&Htra);
      [by apply count_stale_shown|].
    assert (∀ sg h, h ∈ from_option (slots sg) [] (connections σa !! s) →
                    syncs_to σa [d] kv h (kv * 10)) as Hsync_a.
    { intros sg h Hin. unfold syncs_to. rewrite (target_frame σ1 σa) by apply Hsa.
      apply (Hsync sg). by rewrite <- (ef_connections _ _ (st_frame _ _ _ _ _ Hsa)). }
    destruct (emit_synced fuel s Qt.valueChanged (kv * 10) σa [d] kv
                (NoDup_singleton _) (st_can_show _ _ _ _ _ Hsa) (Hsync_a _))
      as (σ2&ws2&Hrun_2&Hs2&Hpv2&_).
    destruct (synced_to_quiet _ _ _ _ _ Hs2) as (_&Hw2&Htr2).
    { rewrite Hwa. by apply count_stale_shown. }
    exists σ2. split_and!; [done|congruence|congruence|].
    rewrite Hpv2, Hpva.
    rewrite (ef_connections _ _ (st_frame _ _ _ _ _ Hsa)), Hcs1, Hcs. cbn.
    rewrite Z.quot_mul by lia. rewrite Hpv1'. by rewrite !insert_insert_eq.
  - (* a slider change *)
    intros v Hv Hne.
    assert (Qt.qBound (Qt.minimum qs) v (Qt.maximum qs) = v) as Hb_v.
    { rewrite Hsmin, Hsmax. by apply qBound_id. }
    assert (0 ≤ v ÷ 10 ≤ 100) as Hkv.
    { split; [apply Z.quot_pos; lia|]. apply Z.quot_le_upper_bound; lia. }
    destruct (user_change_synced fuel pressed s v σ qs [d] (v ÷ 10) Hqs Hsunb)
      as (σ1&Hrun&Hf1&Hc1&Hs1&Hout1&Hr1&Hpv1).
    { rewrite Hb_v. intros Heq. apply Hne. unfold value_at. by rewrite Hqs, <- Heq. }
    { apply NoDup_singleton. }
    { done. }
    { intros t ->%list_elem_of_singleton. exists qd. split; [done|lia]. }
    { rewrite Hb_v. intros sg h Hin.
      apply (slider_slots_sync σ key s d ls v sg); [done..|lia|done]. }
    rewrite Hb_v in *. rewrite Hcs in *. cbn in Hpv1.
    assert (preset_values σ1 = <[key := inject_Z (v ÷ 10)]> (preset_values σ)) as Hpv1'.
    { rewrite Hpv1. destruct pressed; cbn; by rewrite ?insert_insert_eq. }
    assert (value_at σ1 d = Some (v ÷ 10)) as Hd1.
    { apply (Hr1 (h_slider_to_knob d key) d (v ÷ 10)); [|done]. cbn. right. right. by left. }
    assert (value_at σ1 s = Some v) as Hs1'.
    { unfold value_at. by rewrite Hs1. }
    exists σ1. split_and!; [done..|].
    (* propagating back from the knob *)
    pose proof Hd1 as Hd1v. unfold value_at in Hd1v.
    destruct (widgets σ1 !! d) as [qd1|] eqn:Hqd1; [|done]. injection Hd1v as Hd1v.
    assert (can_show (widgets σ1) (v ÷ 10 * 10) [s]) as Hcs1.
    { intros t ->%list_elem_of_singleton. eexists. split; [done|]. cbn. lia. }
    assert (connections σ1 !! d = connections σ !! d) as Hcd1
      by (by rewrite (ef_connections _ _ Hf1)).
    unfold propagate. rewrite (bind_ok _ _ _ _ _ (value_of_ok _ _ _ Hqd1)). rewrite Hd1v.
    rewrite (bind_ok _ _ σ1 tt σ1); last first.
    { rewrite emit_unfold, Hcd1, Hcd. done. }
    destruct (emit_synced fuel d Qt.valueChanged (v ÷ 10) σ1 [s] (v ÷ 10 * 10)
                (NoDup_singleton _) Hcs1)
      as (σ2&ws2&Hrun_2&Hs2&Hpv2&Hr2).
    { intros h Hin. apply (dial_slots_sync σ1 key s d ld _ Qt.valueChanged); [|done].
      by rewrite Hcd1. }
    assert (value_at σ2 s = Some (v ÷ 10 * 10)) as Hs2'.
    { apply (Hr2 (h_knob_to_slider s key) s (v ÷ 10 * 10)); [|done].
      rewrite Hcd1, Hcd. cbn. right. by left. }
    exists σ2. split_and!; [done| |done| |].
    + unfold value_at. rewrite (st_outside _ _ _ _ _ Hs2) by done. rewrite Hqd1. cbn. by rewrite Hd1v.
    + intros Hmod.
      assert (v ÷ 10 * 10 = v) as Hex.
      { rewrite Z.quot_div_nonneg by lia. pose proof (Z.div_mod v 10). lia. }
      destruct (synced_to_quiet _ _ _ _ _ Hs2) as (_&Hw2&Htr2).
      { apply count_stale_shown. by rewrite Hex. }
      split_and!; [done..|].
      rewrite Hpv2, Hcd1, Hcd. cbn. rewrite Hpv1'. by rewrite insert_insert_eq.
    + intros Hmod.
      assert (v ÷ 10 * 10 ≠ v) as Hnex.
      { rewrite Z.quot_div_nonneg by lia. pose proof (Z.div_mod v 10). lia. }
      rewrite (st_trace _ _ _ _ _ Hs2).
      rewrite (synced_to_single _ _ _ _ _ Hs2); [done| |done].
      rewrite Hs1'. congruence.
Qed.
(** ** The running window is bound *)

Lemma main_window_bound : bound main_window "DECAY" 0%nat [6%nat].
Proof.
  constructor.
  - exists {| Qt.value := 500; Qt.minimum := 0; Qt.maximum := 1000; Qt.signalsBlocked := false |}.
    by vm_compute.
  - intros d ->%list_elem_of_singleton.
    exists {| Qt.value := 50; Qt.minimum := 0; Qt.maximum := 100; Qt.signalsBlocked := false |}.
    by vm_compute.
  - apply NoDup_cons. split; [by intros [=]%list_elem_of_singleton|apply NoDup_singleton].
  - exists 2%nat. by vm_compute.
  - intros d ->%list_elem_of_singleton. exists 9%nat. by vm_compute.
  - intros k Hk. vm_compute in Hk. discriminate.
Qed.

Lemma main_window_knob_map k : knob_widget_map main_window !! "DECAY" = Some k → k = 6%nat.
Proof. intros Hk. vm_compute in Hk. discriminate. Qed.

(** C1 as stated fails: after the slider change 257 the knob reads 25, not
    round(25.7) = 26, and propagating back from the knob is no no-op: it
    writes 250 to the slider. *)
Lemma slider_change_rounds_counterexample :
  observe (user_change 1 true 0%nat 257) (λ _ σ1, value_at σ1 6%nat) main_window
  = Some (Some 25) ∧
  round_tenth 257 = 26 ∧
  observe (user_change 1 true 0%nat 257 ;; propagate 1 6%nat)
    (λ _ σ2, (value_at σ2 0%nat, head (trace σ2))) main_window
  = Some (Some 250, Some (0%nat, 250)).
Proof. by vm_compute. Qed.

Lemma main_window_dial_shows : value_at main_window 6%nat ≠ Some 33.
Proof. by vm_compute. Qed.

Lemma main_window_slider_shows : value_at main_window 0%nat ≠ Some 257.
Proof. by vm_compute. Qed.

Lemma propagate_truncates_and_settles_witness :
  (∃ σ1, user_change 1 true 6%nat 33 main_window = Ok (tt, σ1) ∧
         value_at σ1 6%nat = Some 33 ∧ value_at σ1 0%nat = Some (33 * 10) ∧
         ∃ σ2, propagate 1 0%nat σ1 = Ok (tt, σ2) ∧
               widgets σ2 = widgets σ1 ∧ trace σ2 = trace σ1 ∧
               preset_values σ2 = preset_values σ1) ∧
  (∃ σ1, user_change 1 true 0%nat 257 main_window = Ok (tt, σ1) ∧
         value_at σ1 0%nat = Some 257 ∧ value_at σ1 6%nat = Some (257 ÷ 10)).
Proof.
  destruct (propagate_truncates_and_settles 1 true main_window "DECAY" 0%nat 6%nat
              main_window_bound main_window_knob_map (le_n 1)) as [Hknob Hslider].
  split.
  - apply (Hknob 33); [lia|exact main_window_dial_shows].
  - destruct (Hslider 257) as (σ1&H1&H2&H3&_); [lia|exact main_window_slider_shows|].
    exists σ1. split; [exact H1|]. split; [exact H2|exact H3].
Defined.

Lemma sync_terminates_with_bounded_writes_witness :
  ∃ σ' ws, user_change 1 true 0%nat 257 main_window = Ok (tt, σ') ∧
           trace σ' = ws ++ trace main_window ∧
           (length ws ≤ live_representations main_window "DECAY" 0%nat [6%nat] - 1)%nat.
Proof.
  apply (sync_terminates_with_bounded_writes 1 true main_window "DECAY" 0%nat [6%nat]).
  - exact main_window_bound.
  - by left.
  - lia.
Defined.
(** ** The sync engine is safe in a well-formed window *)

Lemma wf_handler_ok σ w c sg h :
  wf σ → connections σ !! w = Some c → h ∈ slots sg c → handler_ok σ h.
Proof.
  intros Hwf Hc Hin. specialize (Hwf w c Hc). cbn in Hwf.
  rewrite Forall_forall in Hwf. apply Hwf.
  apply elem_of_app. destruct sg; [by left|by right].
Qed.

Section Safe.
Variable E : wid → Qt.signal → Z → M unit.

Lemma for_each_safe hs v σ :
  Forall (handler_ok σ) hs →
  ∃ σ', for_each hs (λ h, run_handler (setValue_with E) h v) σ = Ok (tt, σ') ∧
        engine_frame σ σ'.
Proof.
  revert σ. induction hs as [|h hs IH]; intros σ Hok.
  - exists σ. split; [done|apply engine_frame_refl].
  - apply Forall_cons in Hok as [Hh Hhs].
    destruct (run_handler_effect E h v σ Hh) as (σ1&Hrun&Hf1&_).
    destruct (IH σ1) as (σ2&Hrun2&Hf2).
    { eapply Forall_impl; [done|]. intros h'. by apply handler_ok_frame. }
    exists σ2. cbn [for_each]. rewrite (bind_ok _ _ _ _ _ Hrun).
    split; [done|by eapply engine_frame_trans].
Qed.

End Safe.

Lemma emit_safe fuel w sg v σ :
  wf σ → ∃ σ', emit (S fuel) w sg v σ = Ok (tt, σ') ∧ engine_frame σ σ'.
Proof.
  intros Hwf. rewrite emit_unfold. apply for_each_safe.
  destruct (connections σ !! w) as [c|] eqn:Hc; cbn; [|done].
  apply Forall_forall. intros h Hin. by eapply wf_handler_ok.
Qed.

Lemma setValue_safe fuel w v σ :
  wf σ → is_Some (widgets σ !! w) →
  ∃ σ', setValue (S fuel) w v σ = Ok (tt, σ') ∧ engine_frame σ σ'.
Proof.
  intros Hwf [q Hq]. unfold setValue, setValue_with.
  rewrite (bind_ok _ _ _ _ _ (widget_ok _ _ _ Hq)).
  unfold bind at 1, modify at 1.
  destruct (decide _).
  { eexists. split; [done|apply engine_frame_trace]. }
  unfold bind at 1, modify at 1.
  set (σ1 := set_widgets _ _).
  assert (engine_frame σ σ1) as Hf1.
  { eapply engine_frame_trans; [apply engine_frame_trace|].
    by eapply (engine_frame_widget (set_trace _ σ)). }
  destruct (Qt.signalsBlocked q).
  { exists σ1. by split. }
  destruct (emit_safe fuel w Qt.valueChanged
              (Qt.qBound (Qt.minimum q) v (Qt.maximum q)) σ1) as (σ2&Hrun&Hf2).
  { by eapply wf_frame. }
  exists σ2. split; [done|by eapply engine_frame_trans].
Qed.

Lemma user_change_safe fuel pressed w v σ :
  wf σ → is_Some (widgets σ !! w) →
  ∃ σ', user_change (S fuel) pressed w v σ = Ok (tt, σ') ∧ engine_frame σ σ'.
Proof.
  intros Hwf [q Hq]. unfold user_change.
  rewrite (bind_ok _ _ _ _ _ (widget_ok _ _ _ Hq)).
  destruct (decide _).
  { exists σ. split; [done|apply engine_frame_refl]. }
  assert (∃ σa,
    (if pressed && negb (Qt.signalsBlocked q)
     then emit (S fuel) w Qt.sliderMoved (Qt.qBound (Qt.minimum q) v (Qt.maximum q))
     else ret tt) σ = Ok (tt, σa) ∧ engine_frame σ σa) as (σa&Hrun_a&Hfa).
  { destruct (pressed && negb (Qt.signalsBlocked q)); [by apply emit_safe|].
    exists σ. split; [done|apply engine_frame_refl]. }
  rewrite (bind_ok _ _ _ _ _ Hrun_a).
  destruct (proj2 (engine_frame_is_Some σ σa w Hfa)) as [qa Hqa]; [by eexists|].
  rewrite (bind_ok _ _ _ _ _ (widget_ok _ _ _ Hqa)).
  unfold bind at 1, modify at 1.
  set (σb := set_widgets _ σa).
  assert (engine_frame σa σb) as Hfb by (by eapply engine_frame_widget).
  destruct (Qt.signalsBlocked qa).
  { exists σb. split; [done|by eapply engine_frame_trans]. }
  destruct (emit_safe fuel w Qt.valueChanged
              (Qt.qBound (Qt.minimum q) v (Qt.maximum q)) σb) as (σc&Hrun_c&Hfc).
  { eapply wf_frame; [|done]. by eapply engine_frame_trans. }
  exists σc. split; [done|].
  eapply engine_frame_trans; [|done]. by eapply engine_frame_trans.
Qed.

(** ** Dictionaries *)

Section PyDictLemmas.
Context {V : Type}.
Implicit Types (d : pydict V) (k : string) (v : V).

Lemma get_None d k : PyDict.get k d = None ↔ k ∉ PyDict.keys d.
Proof.
  induction d as [|[k' v'] d IH]; cbn.
  - split; [intros _; apply not_elem_of_nil|done].
  - destruct (decide (k' = k)) as [->|Hne].
    + split; [done|]. intros Hn. exfalso. apply Hn. by left.
    + rewrite IH, not_elem_of_cons. split; [|by intros [_ ?]].
      intros H. split; [by apply not_eq_sym|done].
Qed.

Lemma get_Some_keys d k v : PyDict.get k d = Some v → k ∈ PyDict.keys d.
Proof.
  intros H. destruct (decide (k ∈ PyDict.keys d)) as [|Hn]; [done|].
  apply get_None in Hn. congruence.
Qed.

Lemma get_Some_elem d k v : PyDict.get k d = Some v → (k, v) ∈ d.
Proof.
  induction d as [|[k' v'] d IH]; cbn; [done|].
  destruct (decide (k' = k)) as [->|Hne].
  - intros [= ->]. by left.
  - intros H. right. by apply IH.
Qed.


Lemma contains_true d k : PyDict.contains k d = true ↔ k ∈ PyDict.keys d.
Proof.
  unfold PyDict.contains. rewrite bool_decide_eq_true.
  destruct (PyDict.get k d) eqn:Hg.
  - split; [intros _; by eapply get_Some_keys|by eexists].
  - apply get_None in Hg. split; [by intros [? [=]]|done].
Qed.

Lemma contains_false d k : PyDict.contains k d = false ↔ PyDict.get k d = None.
Proof.
  unfold PyDict.contains. rewrite bool_decide_eq_false.
  destruct (PyDict.get k d) as [v|].
  - split; [|done]. intros H. exfalso. apply H. by eexists.
  - split; [done|]. intros _ [? [=]].
Qed.

Lemma get_set_eq d k v : PyDict.get k (PyDict.set k v d) = Some v.
Proof.
  induction d as [|[k' v'] d IH]; cbn.
  - by rewrite decide_True.
  - destruct (decide (k' = k)) as [->|Hne]; cbn.
    + by rewrite decide_True.
    + by rewrite decide_False.
Qed.

Lemma get_set_ne d k k' v : k ≠ k' → PyDict.get k' (PyDict.set k v d) = PyDict.get k' d.
Proof.
  intros Hne. induction d as [|[k0 v0] d IH]; cbn.
  - by rewrite decide_False.
  - destruct (decide (k0 = k)) as [->|Hne0]; cbn.
    + by rewrite !decide_False.
    + destruct (decide (k0 = k')); [done|apply IH].
Qed.

Lemma set_fresh d k v : PyDict.get k d = None → PyDict.set k v d = d ++ [(k, v)].
Proof.
  induction d as [|[k' v'] d IH]; cbn; [done|].
  destruct (decide (k' = k)); [done|]. intros H. by rewrite IH.
Qed.

Lemma keys_set_present d k v :
  is_Some (PyDict.get k d) → PyDict.keys (PyDict.set k v d) = PyDict.keys d.
Proof.
  unfold PyDict.keys. induction d as [|[k' v'] d IH]; cbn; [by intros [? [=]]|].
  destruct (decide (k' = k)) as [->|]; cbn; [done|]. intros H. by rewrite IH.
Qed.

Lemma wf_set d k v : PyDict.wf d → PyDict.wf (PyDict.set k v d).
Proof.
  intros Hwf. destruct (PyDict.get k d) eqn:Hg.
  - unfold PyDict.wf. by rewrite keys_set_present.
  - rewrite set_fresh by done. unfold PyDict.wf, PyDict.keys in *.
    rewrite fmap_app. apply NoDup_app. split_and!; [done| |apply NoDup_singleton].
    intros k' Hk' ->%list_elem_of_singleton. by apply get_None in Hg.
Qed.

Lemma keys_remove_subseteq d k : PyDict.keys (PyDict.remove k d) ⊆ PyDict.keys d.
Proof.
  unfold PyDict.keys. induction d as [|[k' v'] d IH]; cbn; [done|].
  destruct (decide (k' = k)); cbn.
  - by apply list_subseteq_cons.
  - intros x [->|Hx]%elem_of_cons; [by left|]. right. by apply IH.
Qed.

Lemma wf_remove d k : PyDict.wf d → PyDict.wf (PyDict.remove k d).
Proof.
  unfold PyDict.wf, PyDict.keys. induction d as [|[k' v'] d IH]; cbn; [done|].
  intros [Hn Hnd]%NoDup_cons. destruct (decide (k' = k)); cbn; [done|].
  apply NoDup_cons. split; [|by apply IH].
  intros Hin. apply Hn. by apply (keys_remove_subseteq d k).
Qed.

Lemma get_remove_eq d k : PyDict.wf d → PyDict.get k (PyDict.remove k d) = None.
Proof.
  unfold PyDict.wf, PyDict.keys. induction d as [|[k' v'] d IH]; cbn; [done|].
  intros [Hn Hnd]%NoDup_cons. destruct (decide (k' = k)) as [->|Hne]; cbn.
  - by apply get_None.
  - rewrite decide_False by done. by apply IH.
Qed.

Lemma get_remove_ne d k k' : k ≠ k' → PyDict.get k' (PyDict.remove k d) = PyDict.get k' d.
Proof.
  intros Hne. induction d as [|[k0 v0] d IH]; cbn; [done|].
  destruct (decide (k0 = k)) as [->|Hne0]; cbn.
  - by rewrite decide_False.
  - destruct (decide (k0 = k')); [done|apply IH].
Qed.

Lemma remove_absent d k : PyDict.get k d = None → PyDict.remove k d = d.
Proof.
  induction d as [|[k' v'] d IH]; cbn; [done|].
  destruct (decide (k' = k)); [done|]. intros H. by rewrite IH.
Qed.

End PyDictLemmas.
(** ** The slot allocator *)




Lemma grid_eq :
  grid = ["1A"; "1B"; "1C"; "1D"; "1E"; "1F"; "2A"; "2B"; "2C"; "2D"; "2E"; "2F";
          "3A"; "3B"; "3C"; "3D"; "3E"; "3F"; "4A"; "4B"; "4C"; "4D"; "4E"; "4F"].
Proof. by vm_compute. Qed.



Lemma sentinel_not_in_grid : "??" ∉ grid.
Proof. rewrite grid_eq. apply (bool_decide_unpack _). by vm_compute. Qed.




(** ** Saving into the main store *)

Lemma store_frame_refl σ : store_frame σ σ.
Proof. by constructor. Qed.

Lemma store_frame_trans σ1 σ2 σ3 :
  (∀ l, l ∈ dom (heap σ1) → l ∈ dom (heap σ2)) →
  store_frame σ1 σ2 → store_frame σ2 σ3 → store_frame σ1 σ3.
Proof.
  intros Hdom H12 H23. constructor; intros.
  all: try (etrans; [by apply H23|by apply H12]).
  etrans; [apply H23; by apply Hdom|by apply H12].
Qed.


Lemma wf_store_frame σ σ' : store_frame σ σ' → wf σ → wf σ'.
Proof.
  intros Hf Hwf. unfold wf in *. rewrite (sf_connections _ _ Hf).
  eapply map_Forall_impl; [done|]. cbn. intros _ c Hc.
  eapply Forall_impl; [done|]. intros h. unfold handler_ok.
  assert (target σ' h 0 = target σ h 0) as ->.
  { destruct h; cbn; by rewrite ?(sf_knob_widget_map _ _ Hf), ?(sf_slider_widget_map _ _ Hf). }
  by rewrite (sf_widgets _ _ Hf).
Qed.

Lemma slider_values_ok sw acc σ :
  Forall (λ e, is_Some (widgets σ !! e.1.2)) sw →
  slider_values sw acc σ = Ok (slider_values_of σ sw acc, σ).
Proof.
  revert acc. induction sw as [|[[n s] l] sw IH]; intros acc Hok; [done|].
  apply Forall_cons in Hok as [[q Hq] Hok]. cbn in Hq. cbn [slider_values].
  rewrite (bind_ok _ _ _ _ _ (value_of_ok _ _ _ Hq)).
  rewrite IH by done. unfold slider_values_of, value_at. cbn. by rewrite Hq.
Qed.

Lemma dict_copy_ok l d σ :
  heap σ !! l = Some d →
  dict_copy l σ
  = Ok (fresh (dom (heap σ)), set_heap <[fresh (dom (heap σ)) := d]> σ).
Proof. intros H. unfold dict_copy. by rewrite H. Qed.

Lemma fresh_notin_sub (X Y : gset positive) : Y ⊆ X → fresh X ∉ Y.
Proof. intros Hsub Hin. apply (is_fresh X). by apply Hsub. Qed.

Lemma copies_fresh h b : bank_get b (copies h) ∉ dom h.
Proof.
  unfold copies. destruct b; cbn [bank_get of_mod of_bic of_ech].
  - apply is_fresh.
  - apply fresh_notin_sub. rewrite dom_insert_L. set_solver.
  - apply fresh_notin_sub. rewrite !dom_insert_L. set_solver.
Qed.

Lemma copies_distinct h :
  of_mod (copies h) ≠ of_bic (copies h) ∧ of_mod (copies h) ≠ of_ech (copies h) ∧
  of_bic (copies h) ≠ of_ech (copies h).
Proof.
  unfold copies; cbn [of_mod of_bic of_ech]. split_and!.
  - intros Heq. eapply (fresh_notin_sub _ {[fresh (dom h)]}); [|rewrite <- Heq at 1].
    + rewrite dom_insert_L. set_solver.
    + set_solver.
  - intros Heq. eapply (fresh_notin_sub _ {[fresh (dom h)]}); [|rewrite <- Heq at 1].
    + rewrite !dom_insert_L. set_solver.
    + set_solver.
  - intros Heq.
    eapply (fresh_notin_sub _
              {[fresh (dom (<[fresh (dom h) := default ∅ (h !! mod_value_map)]> h))]});
      [|rewrite <- Heq at 1].
    + rewrite !dom_insert_L. set_solver.
    + set_solver.
Qed.

Lemma heap_with_copies_old h l : l ∈ dom h → heap_with_copies h !! l = h !! l.
Proof.
  intros Hl. unfold heap_with_copies.
  rewrite !lookup_insert_ne; [done|..]; intros <-.
  - by apply (copies_fresh h Mod).
  - by apply (copies_fresh h Bic).
  - by apply (copies_fresh h Ech).
Qed.

Lemma heap_with_copies_new h b :
  is_Some (h !! value_map b) →
  heap_with_copies h !! bank_get b (copies h) = h !! value_map b.
Proof.
  intros [d Hd]. destruct (copies_distinct h) as (H1&H2&H3).
  unfold heap_with_copies. destruct b; cbn [bank_get].
  - rewrite lookup_insert_ne by done. rewrite lookup_insert_ne by done.
    rewrite lookup_insert_eq. unfold mod_value_map. by rewrite Hd.
  - rewrite lookup_insert_ne by done. rewrite lookup_insert_eq.
    unfold bic_value_map. by rewrite Hd.
  - rewrite lookup_insert_eq. unfold ech_value_map. by rewrite Hd.
Qed.

(** A save under a new name: what it returns and the world it leaves. *)
Lemma _save_preset_new σ text :
  ready σ →
  name_of text ≠ "" →
  PyDict.get (name_of text) (presets σ) = None →
  ∃ σ',
    _save_preset (Some text) σ = Ok (Saved (name_of text) (_next_pos σ), σ') ∧
    store_frame σ σ' ∧
    presets σ'
    = presets σ ++ [(name_of text,
                     Preset (_next_pos σ) (slider_values_of σ (slider_widgets σ) ∅)
                       (Some (copies (heap σ))))] ∧
    heap σ' = heap_with_copies (heap σ) ∧
    current_preset_name σ' = name_of text ∧
    current_preset_position σ' = _next_pos σ ∧
    fs σ' = FS (Some (Doc (dump_presets σ'))) (bank_preset_file (fs σ)).
Proof.
  intros (Hsl&Hlive&_) Hne Hnew. unfold _save_preset. fold (name_of text).
  unfold bind at 1, gets at 1. rewrite decide_False by done.
  unfold bind at 1, gets at 1.
  rewrite (proj2 (contains_false _ _) Hnew).
  unfold bind at 1, gets at 1.
  rewrite (bind_ok _ _ _ _ _ (slider_values_ok _ _ _ Hsl)).
  destruct (Hlive Mod) as [dm Hdm]. destruct (Hlive Bic) as [db Hdb].
  destruct (Hlive Ech) as [de Hde].
  rewrite (bind_ok _ _ _ _ _ (dict_copy_ok _ _ _ Hdm)).
  erewrite bind_ok; last first.
  { apply dict_copy_ok. cbn. rewrite lookup_insert_ne; [exact Hdb|].
    intros Heq. apply (is_fresh (dom (heap σ))). rewrite Heq. by apply elem_of_dom. }
  erewrite bind_ok; last first.
  { apply dict_copy_ok. cbn. rewrite !lookup_insert_ne; [exact Hde|..].
    - intros Heq. apply (is_fresh (dom (heap σ))). rewrite Heq. by apply elem_of_dom.
    - intros Heq. apply (is_fresh (dom (<[fresh (dom (heap σ)) := dm]> (heap σ)))).
      rewrite Heq, dom_insert_L. apply elem_of_union. right. by apply elem_of_dom. }
  unfold write_preset_file, print, _refresh_edit_title, setText, bind, modify, gets, ret.
  cbn.
  assert (heap_with_copies (heap σ)
          = <[fresh (dom (<[fresh (dom (<[fresh (dom (heap σ)):=dm]> (heap σ))):=db]>
                             (<[fresh (dom (heap σ)):=dm]> (heap σ)))):=de]>
              (<[fresh (dom (<[fresh (dom (heap σ)):=dm]> (heap σ))):=db]>
                 (<[fresh (dom (heap σ)):=dm]> (heap σ)))) as Hheap.
  { unfold heap_with_copies, copies, mod_value_map, bic_value_map, ech_value_map.
    cbn [of_mod of_bic of_ech]. by rewrite Hdm, Hdb, Hde. }
  assert (copies (heap σ)
          = PerBank (fresh (dom (heap σ)))
              (fresh (dom (<[fresh (dom (heap σ)):=dm]> (heap σ))))
              (fresh (dom (<[fresh (dom (<[fresh (dom (heap σ)):=dm]> (heap σ))):=db]>
                             (<[fresh (dom (heap σ)):=dm]> (heap σ)))))) as Hcopies.
  { unfold copies, mod_value_map, bic_value_map. by rewrite Hdm, Hdb. }
  destruct (edit_title σ) eqn:Het; cbn; rewrite ?Het; cbn;
    (eexists; split; [reflexivity|]); cbn;
    (split_and!;
     [constructor; cbn; try done;
      intros l Hl; rewrite <- Hheap; by apply heap_with_copies_old
     |by rewrite (set_fresh _ _ _ Hnew), Hcopies
     |done|done|done|done]).
Qed.

(** ** C2: saves fill the grid in scan order *)







Lemma _delete_spec name σ :
  _delete (Some name) true σ
  = Ok (Deleted name, set_presets (PyDict.remove name) σ).
Proof. reflexivity. Qed.






Lemma main_window_ready : ready main_window.
Proof.
  split_and!.
  - apply (bool_decide_unpack _). by vm_compute.
  - intros []; apply (bool_decide_unpack _); by vm_compute.
  - intros ks b Hk. vm_compute in Hk. injection Hk as <-.
    destruct b; apply (bool_decide_unpack _); by vm_compute.
Qed.



(** ** C3: saving under a name that exists *)

Lemma bank_get_set {A} b (a : A) p : bank_get b (bank_set b a p) = a.
Proof. by destruct b. Qed.

Lemma bank_get_set_ne {A} b b' (a : A) p :
  b ≠ b' → bank_get b' (bank_set b a p) = bank_get b' p.
Proof. by destruct b, b'. Qed.

Lemma knob_values_ok ks acc σ :
  Forall (λ e, is_Some (widgets σ !! e.2)) ks →
  knob_values ks acc σ = Ok (knob_values_of σ ks acc, σ).
Proof.
  revert acc. induction ks as [|[n k] ks IH]; intros acc Hok; [done|].
  apply Forall_cons in Hok as [[q Hq] Hok]. cbn in Hq. cbn [knob_values].
  rewrite (bind_ok _ _ _ _ _ (value_of_ok _ _ _ Hq)).
  rewrite IH by done. unfold knob_values_of, value_at. cbn. by rewrite Hq.
Qed.

Lemma _save_preset_duplicate σ text :
  name_of text ≠ "" → PyDict.contains (name_of text) (presets σ) = true →
  _save_preset (Some text) σ = Ok (DuplicateName (name_of text), σ).
Proof.
  intros Hne Hin. unfold _save_preset. fold (name_of text).
  unfold bind at 1, gets at 1. rewrite decide_False by done.
  unfold bind at 1, gets at 1. by rewrite Hin.
Qed.

Lemma save_preset_declined b ks lbl text σ :
  strip text ≠ "" →
  PyDict.contains (strip text) (bank_get b (bank_presets σ)) = true →
  save_preset b ks lbl (Some text) No σ = Ok (Returned, σ).
Proof.
  intros Hne Hin. unfold save_preset. rewrite decide_False by done.
  unfold bind at 1, gets at 1. by rewrite Hin.
Qed.

Lemma save_preset_writes b ks lbl text ans σ :
  strip text ≠ "" →
  PyDict.contains (strip text) (bank_get b (bank_presets σ)) = false ∨ ans = Yes →
  Forall (λ e, is_Some (widgets σ !! e.2)) ks →
  ∃ σ', save_preset b ks lbl (Some text) ans σ = Ok (BankSaved (strip text), σ') ∧
        bank_presets σ'
        = bank_set b (PyDict.set (strip text) (knob_values_of σ ks ∅)
                        (bank_get b (bank_presets σ))) (bank_presets σ) ∧
        bank_current_preset σ' = bank_set b (Some (strip text)) (bank_current_preset σ) ∧
        labels σ' = <[lbl := strip text]> (labels σ) ∧
        presets σ' = presets σ ∧ widgets σ' = widgets σ ∧ heap σ' = heap σ ∧
        preset_file (fs σ') = preset_file (fs σ) ∧
        bank_preset_file (fs σ')
        = bank_set Mod (Some (Doc (of_mod (bank_presets σ')))) (bank_preset_file (fs σ)).
Proof.
  intros Hne Hgo Hks. unfold save_preset. rewrite decide_False by done.
  unfold bind at 1, gets at 1.
  assert (PyDict.contains (strip text) (bank_get b (bank_presets σ))
          && bool_decide (ans = No) = false) as ->.
  { destruct Hgo as [->| ->]; [done|]. by rewrite andb_false_r. }
  rewrite (bind_ok _ _ _ _ _ (knob_values_ok _ _ _ Hks)).
  eexists. split; [reflexivity|]. by split_and!.
Qed.

(** C3 (amended).  In the main store a save under a name that exists is
    refused: the dialog answers that the name is taken and nothing changes,
    in the store or elsewhere.  In the three banks of the modulation units
    it is not refused: the page asks whether to overwrite; on "No" nothing
    changes, and on "Yes" the entry of this name is replaced by the current
    values of the knobs, at its place in the store, which keeps one entry
    per name. *)
Theorem save_existing_name :
  (∀ σ text,
     name_of text ≠ "" → PyDict.contains (name_of text) (presets σ) = true →
     _save_preset (Some text) σ = Ok (DuplicateName (name_of text), σ)) ∧
  (∀ σ b ks lbl text,
     strip text ≠ "" →
     PyDict.contains (strip text) (bank_get b (bank_presets σ)) = true →
     save_preset b ks lbl (Some text) No σ = Ok (Returned, σ)) ∧
  (∀ σ b ks lbl text,
     strip text ≠ "" →
     PyDict.contains (strip text) (bank_get b (bank_presets σ)) = true →
     Forall (λ e, is_Some (widgets σ !! e.2)) ks →
     ∃ σ', save_preset b ks lbl (Some text) Yes σ = Ok (BankSaved (strip text), σ') ∧
           PyDict.get (strip text) (bank_get b (bank_presets σ'))
           = Some (knob_values_of σ ks ∅) ∧
           PyDict.keys (bank_get b (bank_presets σ'))
           = PyDict.keys (bank_get b (bank_presets σ)) ∧
           (∀ n, n ≠ strip text →
                 PyDict.get n (bank_get b (bank_presets σ'))
                 = PyDict.get n (bank_get b (bank_presets σ))) ∧
           (∀ b', b ≠ b' → bank_get b' (bank_presets σ') = bank_get b' (bank_presets σ)) ∧
           presets σ' = presets σ).
Proof.
  split_and!.
  - intros σ text. apply _save_preset_duplicate.
  - intros σ b ks lbl text. apply save_preset_declined.
  - intros σ b ks lbl text Hne Hin Hks.
    destruct (save_preset_writes b ks lbl text Yes σ Hne (or_intror eq_refl) Hks)
      as (σ'&Hrun&Hbp&_&_&Hps&_).
    exists σ'. rewrite Hbp, bank_get_set. split_and!; [done| | | | |done].
    + apply get_set_eq.
    + apply keys_set_present. apply contains_true in Hin.
      destruct (PyDict.get (strip text) (bank_get b (bank_presets σ))) eqn:Hg; [done|].
      by apply get_None in Hg.
    + intros n Hn. by apply get_set_ne.
    + intros b' Hb. by apply bank_get_set_ne.
Qed.

(** The main window after the preset "A" was saved. *)
Lemma saved_A_contains :
  PyDict.contains (name_of "A")
    (presets (world_of (_save_preset (Some "A") main_window) main_window)) = true.
Proof. by vm_compute. Qed.

Lemma save_existing_name_witness :
  _save_preset (Some "A") (world_of (_save_preset (Some "A") main_window) main_window)
  = Ok (DuplicateName (name_of "A"),
        world_of (_save_preset (Some "A") main_window) main_window).
Proof.
  apply (proj1 save_existing_name).
  - intros H. vm_compute in H. discriminate H.
  - exact saved_A_contains.
Defined.

(** C3 as stated fails for the banks: on the page of the Bi-Chorus the
    preset "A" is saved, the knob Rate is turned to 7 and "A" is saved
    again.  The second save succeeds and the entry now holds the new
    value. *)
Lemma bank_save_overwrites_counterexample :
  observe (ks <- gets (λ σ, default [] (of_bic <$> knobs σ)) ;;
           lbl <- new_label "" ;;
           o1 <- save_preset Bic ks lbl (Some "A") No ;;
           before <- gets (λ σ, PyDict.get "A" (of_bic (bank_presets σ)) ≫= (.!! "Rate")) ;;
           user_change 2 true 18%nat 7 ;;
           o2 <- save_preset Bic ks lbl (Some "A") Yes ;;
           ret (o1, before, o2))
    (λ r σ', (r, PyDict.keys (of_bic (bank_presets σ')),
              PyDict.get "A" (of_bic (bank_presets σ')) ≫= (.!! "Rate")))
    main_window
  = Some ((BankSaved "A", Some 0%Q, BankSaved "A"), ["A"], Some 7%Q).
Proof. by vm_compute. Qed.

(** ** C9: loading a preset *)

Lemma engine_frame_heap σ f :
  (∀ h, dom (f h) = dom h) →
  (∀ h l, (∀ b, l ≠ value_map b) → f h !! l = h !! l) →
  engine_frame σ (set_heap f σ).
Proof. intros Hdom Hl. constructor; try done; cbn; [apply Hdom|apply Hl]. Qed.

Lemma update_from_ok dst src σ :
  update_from dst src σ = Ok (tt, set_heap (merge_from dst src) σ).
Proof. reflexivity. Qed.

Lemma update_from_frame b src σ :
  ∃ σ', update_from (value_map b) src σ = Ok (tt, σ') ∧ engine_frame σ σ'.
Proof.
  unfold update_from, modify. eexists. split; [reflexivity|].
  apply engine_frame_heap.
  - intros h. destruct (src ≫= _); [apply dom_alter_L|done].
  - intros h l Hl. destruct (src ≫= _); [|done].
    apply lookup_alter_ne. by apply not_eq_sym.
Qed.

Lemma for_each_engine {A} (l : list A) (f : A → M unit) σ :
  wf σ →
  Forall (λ e, ∀ σ1, wf σ1 → engine_frame σ σ1 →
               ∃ σ2, f e σ1 = Ok (tt, σ2) ∧ engine_frame σ1 σ2) l →
  ∃ σ', for_each l f σ = Ok (tt, σ') ∧ engine_frame σ σ'.
Proof.
  revert σ. induction l as [|e l IH]; intros σ Hwf Hl.
  - exists σ. split; [done|apply engine_frame_refl].
  - apply Forall_cons in Hl as [He Hl].
    destruct (He σ Hwf (engine_frame_refl σ)) as (σ1&Hrun1&Hf1).
    destruct (IH σ1) as (σ2&Hrun2&Hf2).
    { by eapply wf_frame. }
    { eapply Forall_impl; [exact Hl|]. intros e' He' σ' Hwf' Hf'.
      apply He'; [done|]. by eapply engine_frame_trans. }
    exists σ2. cbn [for_each]. rewrite (bind_ok _ _ _ _ _ Hrun1).
    split; [done|by eapply engine_frame_trans].
Qed.

Lemma _refresh_edit_title_ok σ :
  _refresh_edit_title σ
  = Ok (tt, set_labels (λ m, match edit_title σ with
                             | Some l => <[l := current_preset_name σ]> m
                             | None => m
                             end) σ).
Proof.
  unfold _refresh_edit_title, bind, gets, setText, modify, ret.
  destruct (edit_title σ) eqn:Het; [done|]. by destruct σ.
Qed.

Lemma c_int_ok v σ : fits_c_int v → c_int v σ = Ok (v, σ).
Proof. intros H. unfold c_int. by rewrite decide_True. Qed.

Lemma c_int_raises v σ : ¬ fits_c_int v → c_int v σ = Raise OverflowError.
Proof. intros H. unfold c_int. by rewrite decide_False. Qed.

Lemma bind_raise {A B} (m : M A) (k : A → M B) σ e :
  m σ = Raise e → bind m k σ = Raise e.
Proof. intros H. unfold bind. by rewrite H. Qed.

(** *** Closures that stay away from a set of widgets *)

Lemma heap_write_if_differs t x q σ : heap (write_if_differs t x q σ) = heap σ.
Proof. unfold write_if_differs. by destruct (decide _). Qed.

Lemma widgets_write_if_differs t x q σ s :
  s ≠ t → widgets (write_if_differs t x q σ) !! s = widgets σ !! s.
Proof.
  intros Hne. unfold write_if_differs, written. destruct (decide _); [|done].
  cbn. by rewrite lookup_insert_ne.
Qed.

Section Quiet.
Variable E : wid → Qt.signal → Z → M unit.
Variable S : list wid.

Lemma sync_controls_knob_heap name v s q σ :
  slider_widget_map σ !! name = Some s →
  widgets σ !! s = Some q →
  ∃ σ', sync_controls (setValue_with E) name v "knob" σ = Ok (tt, σ') ∧
        heap σ' = heap σ.
Proof.
  intros Hs Hq. unfold sync_controls.
  rewrite decide_False by done. rewrite decide_True by done.
  unfold bind at 1, gets at 1. rewrite Hs.
  rewrite (bind_ok _ _ _ _ _ (value_of_ok _ _ _ Hq)).
  destruct (decide _).
  - rewrite (bind_ok _ _ _ _ _ (blockSignals_ok _ true _ _ Hq)).
    erewrite bind_ok; last first.
    { apply setValue_blocked; [apply lookup_insert_eq|done]. }
    erewrite bind_ok; last first.
    { apply blockSignals_ok. apply lookup_insert_eq. }
    unfold bind, gets. cbn.
    destruct (slider_label_map σ !! name); eexists; (split; [reflexivity|done]).
  - eexists. split; [reflexivity|done].
Qed.

Lemma run_handler_quiet h v σ :
  handler_ok σ h → quiet_for σ S h →
  ∃ σ', run_handler (setValue_with E) h v σ = Ok (tt, σ') ∧
        engine_frame σ σ' ∧ heap σ' = heap σ ∧
        ∀ s, s ∈ S → widgets σ' !! s = widgets σ !! s.
Proof.
  intros Hok Hq.
  destruct (run_handler_effect E h v σ Hok) as (σ'&Hrun&Hf&Hw&_).
  exists σ'. split_and!; [done|done| |].
  - pose proof (handler_ok_target σ h Hok v) as Hex.
    destruct h as [|l|n source|sl key|d key|l|b n]; cbn [run_handler target] in *.
    + by injection Hrun as <-.
    + by injection Hrun as <-.
    + destruct (decide (source = "slider")) as [->|Hs].
      * destruct (knob_widget_map σ !! n) as [k|] eqn:Hk; cbn in Hex.
        -- destruct (Hex k (v / 10) eq_refl) as [q' Hq'].
           rewrite (sync_controls_slider_spec _ _ _ _ _ _ Hk Hq') in Hrun.
           injection Hrun as <-. apply heap_write_if_differs.
        -- rewrite (sync_controls_slider_unmapped _ _ _ _ Hk) in Hrun.
           by injection Hrun as <-.
      * destruct (decide (source = "knob")) as [->|Hk].
        -- destruct (slider_widget_map σ !! n) as [s|] eqn:Hsl; cbn in Hex.
           ++ destruct (Hex s (v * 10) eq_refl) as [q' Hq'].
              destruct (sync_controls_knob_heap n v s q' σ Hsl Hq') as (σ''&Hrun'&Hh).
              rewrite Hrun' in Hrun. by injection Hrun as <-.
           ++ unfold sync_controls in Hrun. rewrite decide_False in Hrun by done.
              rewrite decide_True in Hrun by done. unfold bind, gets in Hrun.
              rewrite Hsl in Hrun. by injection Hrun as <-.
        -- unfold sync_controls in Hrun. rewrite !decide_False in Hrun by done.
           by injection Hrun as <-.
    + destruct (Hex sl (v * 10) eq_refl) as [q' Hq'].
      rewrite (knob_to_slider_spec _ _ _ _ _ _ Hq') in Hrun.
      injection Hrun as <-. cbn. apply heap_write_if_differs.
    + destruct (Hex d (v ÷ 10) eq_refl) as [q' Hq'].
      rewrite (slider_to_knob_spec _ _ _ _ _ _ Hq') in Hrun.
      injection Hrun as <-. cbn. apply heap_write_if_differs.
    + by injection Hrun as <-.
    + done.
  - intros s Hs. rewrite Hw. unfold target_effect.
    destruct (target σ h v) as [[t x]|] eqn:Ht; [|done].
    destruct (widgets σ !! t) as [q|] eqn:Hqt; [|done].
    apply widgets_write_if_differs. intros ->.
    destruct (target_widget _ _ _ _ _ Ht) as [y Hy].
    unfold quiet_for in Hq. rewrite Hy in Hq. by destruct h.
Qed.

Lemma quiet_for_frame σ σ' h :
  engine_frame σ σ' → quiet_for σ S h → quiet_for σ' S h.
Proof. intros Hf. unfold quiet_for. by rewrite (target_frame σ σ'). Qed.

Lemma for_each_quiet hs v σ :
  Forall (handler_ok σ) hs → Forall (quiet_for σ S) hs →
  ∃ σ', for_each hs (λ h, run_handler (setValue_with E) h v) σ = Ok (tt, σ') ∧
        engine_frame σ σ' ∧ heap σ' = heap σ ∧
        ∀ s, s ∈ S → widgets σ' !! s = widgets σ !! s.
Proof.
  revert σ. induction hs as [|h hs IH]; intros σ Hok Hq.
  - exists σ. split_and!; [done|apply engine_frame_refl|done|done].
  - apply Forall_cons in Hok as [Hh Hhs]. apply Forall_cons in Hq as [Hqh Hqs].
    destruct (run_handler_quiet h v σ Hh Hqh) as (σ1&Hrun&Hf1&Hh1&Hw1).
    destruct (IH σ1) as (σ2&Hrun2&Hf2&Hh2&Hw2).
    { eapply Forall_impl; [exact Hhs|]. intros h'. by apply handler_ok_frame. }
    { eapply Forall_impl; [exact Hqs|]. intros h'. by apply quiet_for_frame. }
    exists σ2. cbn [for_each]. rewrite (bind_ok _ _ _ _ _ Hrun).
    split_and!; [done|by eapply engine_frame_trans|by rewrite Hh2|].
    intros s Hs. by rewrite Hw2, Hw1.
Qed.

End Quiet.

Lemma setValue_quiet S fuel w v q σ :
  wf σ → widgets σ !! w = Some q →
  Forall (quiet_for σ S) (from_option on_valueChanged [] (connections σ !! w)) →
  ∃ σ', setValue (Datatypes.S fuel) w v σ = Ok (tt, σ') ∧
        engine_frame σ σ' ∧ heap σ' = heap σ ∧
        (w ∈ S → value_at σ' w
                 = Some (Qt.qBound (Qt.minimum q) v (Qt.maximum q))) ∧
        ∀ s, s ∈ S → s ≠ w → widgets σ' !! s = widgets σ !! s.
Proof.
  intros Hwf Hq Hquiet. unfold setValue, setValue_with.
  rewrite (bind_ok _ _ _ _ _ (widget_ok _ _ _ Hq)).
  unfold bind at 1, modify at 1.
  destruct (decide _) as [Hv|Hv].
  { eexists. split; [done|]. split_and!; [apply engine_frame_trace|done| |done].
    intros _. unfold value_at. cbn. rewrite Hq. cbn. by rewrite Hv. }
  unfold bind at 1, modify at 1.
  set (v' := Qt.qBound (Qt.minimum q) v (Qt.maximum q)) in *.
  set (σ1 := set_widgets _ _).
  assert (engine_frame σ σ1) as Hf1.
  { eapply engine_frame_trans; [apply engine_frame_trace|].
    by eapply (engine_frame_widget (set_trace _ σ)). }
  assert (value_at σ1 w = Some v') as Hval1.
  { unfold value_at, σ1. cbn. by rewrite lookup_insert_eq. }
  assert (∀ s, s ≠ w → widgets σ1 !! s = widgets σ !! s) as Hoth1.
  { intros s Hs. unfold σ1. cbn. by rewrite lookup_insert_ne. }
  destruct (Qt.signalsBlocked q).
  { exists σ1. split_and!; [done|done|done|by intros _|].
    intros s _ Hne. by apply Hoth1. }
  rewrite emit_unfold.
  destruct (for_each_quiet (emit fuel) S
              (from_option (slots Qt.valueChanged) [] (connections σ1 !! w)) v' σ1)
    as (σ2&Hrun&Hf2&Hh2&Hw2).
  { pose proof (wf_frame _ _ Hf1 Hwf) as Hwf1.
    destruct (connections σ1 !! w) as [c|] eqn:Hc; cbn; [|done].
    apply Forall_forall. intros h Hin. by eapply (wf_handler_ok σ1 w c Qt.valueChanged). }
  { rewrite (ef_connections _ _ Hf1).
    eapply Forall_impl.
    - destruct (connections σ !! w); exact Hquiet.
    - intros h. by apply quiet_for_frame. }
  exists σ2. split_and!; [done|by eapply engine_frame_trans|by rewrite Hh2| |].
  - intros Hin. unfold value_at in *. by rewrite (Hw2 w Hin).
  - intros s Hs Hne. by rewrite (Hw2 s Hs), Hoth1.
Qed.

(** *** The sliders after a load *)

Lemma load_sliders S fuel data (f : string * wid * lid → M unit) sw σ :
  (∀ n sld l, f (n, sld, l)
              = (v <- c_int (loaded_raw data n) ;; setValue (Datatypes.S fuel) sld v)) →
  wf σ →
  NoDup ((λ e, e.1.2) <$> sw) →
  Forall (λ e, e.1.2 ∈ S ∧ is_Some (widgets σ !! e.1.2) ∧
               Forall (quiet_for σ S)
                 (from_option on_valueChanged [] (connections σ !! e.1.2)) ∧
               fits_c_int (loaded_raw data e.1.1)) sw →
  ∃ σ', for_each sw f σ = Ok (tt, σ') ∧
        engine_frame σ σ' ∧ heap σ' = heap σ ∧
        Forall (λ e, ∃ q, widgets σ !! e.1.2 = Some q ∧
                          value_at σ' e.1.2
                          = Some (Qt.qBound (Qt.minimum q) (loaded_raw data e.1.1)
                                    (Qt.maximum q))) sw ∧
        ∀ s, s ∈ S → s ∉ (λ e, e.1.2) <$> sw → widgets σ' !! s = widgets σ !! s.
Proof.
  intros Hf. revert σ. induction sw as [|[[n s] l] sw IH]; intros σ Hwf Hnd Hsw.
  - exists σ. split_and!; [done|apply engine_frame_refl|done|done|done].
  - apply Forall_cons in Hsw as [(Hin&[q Hq]&Hquiet&Hfits) Hsw]. cbn in Hin, Hq, Hquiet, Hfits.
    rewrite fmap_cons in Hnd. apply NoDup_cons in Hnd as [Hnotin Hnd]. cbn in Hnotin.
    destruct (setValue_quiet S fuel s (loaded_raw data n) q σ Hwf Hq Hquiet)
      as (σ1&Hrun1&Hf1&Hh1&Hval1&Hoth1).
    destruct (IH σ1) as (σ2&Hrun2&Hf2&Hh2&Hvals2&Hoth2).
    { by eapply wf_frame. }
    { done. }
    { apply Forall_forall. intros e He. rewrite Forall_forall in Hsw.
      destruct (Hsw e He) as (He1&He2&He3&He4). split_and!; [done| | |done].
      - by apply (engine_frame_is_Some σ σ1).
      - rewrite (ef_connections _ _ Hf1). eapply Forall_impl; [exact He3|].
        intros h. by apply quiet_for_frame. }
    exists σ2. split_and!.
    + cbn [for_each]. rewrite Hf. unfold bind at 1.
      rewrite (bind_ok _ _ _ _ _ (c_int_ok _ _ Hfits)). by rewrite Hrun1.
    + by eapply engine_frame_trans.
    + by rewrite Hh2.
    + apply Forall_cons. split.
      * exists q. split; [done|]. cbn. unfold value_at.
        rewrite (Hoth2 s Hin Hnotin). by apply Hval1.
      * apply Forall_forall. intros e He. rewrite Forall_forall in Hvals2.
        destruct (Hvals2 e He) as (q'&Hq'&Hv'). exists q'. split; [|done].
        rewrite <- Hq'. symmetry. apply Hoth1.
        -- rewrite Forall_forall in Hsw. by destruct (Hsw e He).
        -- intros Heq. apply Hnotin. rewrite <- Heq.
           apply list_elem_of_fmap. by exists e.
    + intros s0 Hs0 Hn0. rewrite fmap_cons in Hn0.
      apply not_elem_of_cons in Hn0 as [Hne Hn0]. cbn in Hne.
      rewrite (Hoth2 s0 Hs0 Hn0). by apply Hoth1.
Qed.

Lemma load_sliders_overflow fuel data (f : string * wid * lid → M unit) sw σ :
  (∀ n sld l, f (n, sld, l)
              = (v <- c_int (loaded_raw data n) ;; setValue (Datatypes.S fuel) sld v)) →
  wf σ →
  Forall (λ e, is_Some (widgets σ !! e.1.2)) sw →
  Exists (λ e, ¬ fits_c_int (loaded_raw data e.1.1)) sw →
  for_each sw f σ = Raise OverflowError.
Proof.
  intros Hf. revert σ. induction sw as [|[[n s] l] sw IH]; intros σ Hwf Hsw Hex.
  - by apply Exists_nil in Hex.
  - apply Forall_cons in Hsw as [Hs Hsw]. cbn in Hs. cbn [for_each]. rewrite Hf.
    destruct (decide (- 2 ^ 31 ≤ loaded_raw data n < 2 ^ 31)) as [Hfits|Hbig].
    + apply Exists_cons in Hex as [Hhd|Htl]; [by destruct Hhd|].
      unfold bind at 1. rewrite (bind_ok _ _ _ _ _ (c_int_ok _ _ Hfits)).
      destruct (setValue_safe fuel s (loaded_raw data n) σ Hwf Hs) as (σ1&Hrun1&Hf1).
      rewrite Hrun1. apply IH; [by eapply wf_frame| |done].
      eapply Forall_impl; [exact Hsw|]. intros e He.
      by apply (engine_frame_is_Some σ σ1).
    + apply bind_raise. apply bind_raise. by apply c_int_raises.
Qed.

(** *** The live value maps after a load *)

Lemma union_empty_fmap (x : option (gmap string Q)) : (λ d, ∅ ∪ d) <$> x = x.
Proof. destruct x as [d|]; [|done]. cbn. by rewrite (left_id_L ∅ (∪)). Qed.

Lemma merge_from_lookup dst l h k :
  merge_from dst (Some l) h !! k
  = if decide (k = dst) then (λ d, default ∅ (h !! l) ∪ d) <$> h !! k else h !! k.
Proof.
  unfold merge_from. cbn. destruct (h !! l) as [vals|] eqn:Hl; cbn.
  - destruct (decide (k = dst)) as [->|Hne].
    + by rewrite lookup_alter_eq.
    + by rewrite lookup_alter_ne.
  - destruct (decide _); [|done]. by rewrite union_empty_fmap.
Qed.

Lemma merge_from_None dst h : merge_from dst None h = h.
Proof. reflexivity. Qed.

Lemma merged_lookup σ data b :
  (∀ c b1 b2, modulation data = Some c → bank_get b1 c ≠ value_map b2) →
  merge_from ech_value_map (of_ech <$> modulation data)
    (merge_from bic_value_map (of_bic <$> modulation data)
       (merge_from mod_value_map (of_mod <$> modulation data) (heap σ)))
  !! value_map b
  = (λ d, stored_modulation σ data b ∪ d) <$> heap σ !! value_map b.
Proof.
  intros Hna. unfold stored_modulation.
  destruct (modulation data) as [c|] eqn:Hm; cbn [fmap option_fmap option_map mbind option_bind].
  - pose proof (λ b1 b2, Hna c b1 b2 eq_refl) as Hc.
    pose proof (Hc Mod) as HM. pose proof (Hc Bic) as HB. pose proof (Hc Ech) as HE.
    cbn [bank_get] in HM, HB, HE.
    unfold ech_value_map, bic_value_map, mod_value_map.
    rewrite !merge_from_lookup.
    rewrite (decide_False (P := of_ech c = value_map Bic)) by apply HE.
    rewrite (decide_False (P := of_ech c = value_map Mod)) by apply HE.
    rewrite (decide_False (P := of_bic c = value_map Mod)) by apply HB.
    destruct b; cbn [bank_get].
    + rewrite (decide_False (P := value_map Mod = value_map Ech)) by done.
      rewrite (decide_False (P := value_map Mod = value_map Bic)) by done.
      by rewrite decide_True.
    + rewrite (decide_False (P := value_map Bic = value_map Ech)) by done.
      rewrite (decide_True (P := value_map Bic = value_map Bic)) by done.
      by rewrite (decide_False (P := value_map Bic = value_map Mod)) by done.
    + rewrite (decide_True (P := value_map Ech = value_map Ech)) by done.
      done.
  - rewrite !merge_from_None. cbn. by rewrite union_empty_fmap.
Qed.

(** *** The load *)

Lemma _load_preset_absent fuel name σ :
  PyDict.get name (presets σ) = None → _load_preset fuel name σ = Ok (Returned, σ).
Proof. intros H. unfold _load_preset, bind, gets. cbn. by rewrite H. Qed.

Lemma slider_body fuel data :
  ∀ n sld (l : lid),
    (λ '(n, sld, _),
       v <- c_int (py_int (default 0%Q (values data !! n) * 10)) ;;
       setValue (S fuel) sld v) (n, sld, l)
    = (v <- c_int (loaded_raw data n) ;; setValue (S fuel) sld v).
Proof. reflexivity. Qed.

Lemma _load_preset_selects fuel name data σ :
  wf σ → ready σ → sliders_apart σ → knobs σ = None →
  PyDict.get name (presets σ) = Some data →
  (∀ c b1 b2, modulation data = Some c → bank_get b1 c ≠ value_map b2) →
  Forall (λ e, fits_c_int (loaded_raw data e.1.1)) (slider_widgets σ) →
  ∃ σ', _load_preset (S fuel) name σ = Ok (Loaded name, σ') ∧
        current_preset_name σ' = name ∧
        current_preset_position σ' = position data ∧
        Forall (λ e, ∃ q, widgets σ !! e.1.2 = Some q ∧
                          value_at σ' e.1.2
                          = Some (Qt.qBound (Qt.minimum q) (loaded_raw data e.1.1)
                                    (Qt.maximum q))) (slider_widgets σ) ∧
        (∀ b, heap σ' !! value_map b
              = (λ d, stored_modulation σ data b ∪ d) <$> heap σ !! value_map b) ∧
        presets σ' = presets σ ∧ fs σ' = fs σ.
Proof.
  intros Hwf (Hsl&Hlive&_) (Hnd&Hquiet) Hknobs Hget Hna Hfits. unfold _load_preset.
  unfold bind at 1, gets at 1. rewrite Hget.
  unfold bind at 1, gets at 1.
  match goal with |- context [bind (for_each ?l ?f) _ _] =>
    destruct (load_sliders (slider_ids σ) fuel data f l σ (slider_body fuel data) Hwf Hnd)
      as (σ1&Hrun1&Hf1&Hh1&Hvals&_) end.
  { apply Forall_forall. intros e He.
    assert (e.1.2 ∈ slider_ids σ) as Hin.
    { unfold slider_ids. apply list_elem_of_fmap. by exists e. }
    split_and!; [done| | |].
    - by apply (proj1 (Forall_forall _ _) Hsl e).
    - by apply (proj1 (Forall_forall _ _) Hquiet (e.1.2)).
    - by apply (proj1 (Forall_forall _ _) Hfits e). }
  rewrite (bind_ok _ _ _ _ _ Hrun1).
  rewrite (bind_ok _ _ _ _ _ (update_from_ok _ _ _)).
  rewrite (bind_ok _ _ _ _ _ (update_from_ok _ _ _)).
  rewrite (bind_ok _ _ _ _ _ (update_from_ok _ _ _)).
  unfold bind at 1, gets at 1. cbn [knobs set_heap].
  rewrite (ef_knobs _ _ Hf1), Hknobs.
  unfold bind at 1, ret at 1.
  unfold bind at 1, modify at 1. unfold bind at 1, gets at 1.
  unfold bind at 1, setText at 1, modify at 1. unfold bind at 1, gets at 1.
  unfold bind at 1, setText at 1, modify at 1.
  rewrite (bind_ok _ _ _ _ _ (_refresh_edit_title_ok _)).
  eexists. split; [reflexivity|]. cbn.
  split_and!; [done|done| | |apply Hf1|apply Hf1].
  - exact Hvals.
  - intros b. rewrite Hh1. by apply merged_lookup.
Qed.

Lemma _load_preset_overflow fuel name data σ :
  wf σ → ready σ → PyDict.get name (presets σ) = Some data →
  Exists (λ e, ¬ fits_c_int (loaded_raw data e.1.1)) (slider_widgets σ) →
  _load_preset (S fuel) name σ = Raise OverflowError.
Proof.
  intros Hwf (Hsl&_) Hget Hex. unfold _load_preset.
  unfold bind at 1, gets at 1. rewrite Hget.
  unfold bind at 1, gets at 1.
  apply bind_raise.
  by apply (load_sliders_overflow fuel data _ _ σ (slider_body fuel data)).
Qed.

(** C9 (amended).  Loading a name that the store does not hold returns and
    changes nothing.  Before a modulation page has been opened, loading a
    stored preset whose slider values fit a C int applies it and selects it:
    every slider of the main page shows int(value * 10), bounded to its
    range; the values the preset holds for a modulation unit are merged
    into the live value map of this unit; the preset's name becomes the
    current name and its position the current position; the call returns
    nothing, and the store and its file are unchanged.  When the value of a
    slider does not fit a C int, the call raises OverflowError. *)
Theorem load_selects_preset :
  (∀ fuel name σ,
     PyDict.get name (presets σ) = None → _load_preset fuel name σ = Ok (Returned, σ)) ∧
  (∀ fuel name data σ,
     wf σ → ready σ → sliders_apart σ → knobs σ = None →
     PyDict.get name (presets σ) = Some data →
     (∀ c b1 b2, modulation data = Some c → bank_get b1 c ≠ value_map b2) →
     Forall (λ e, fits_c_int (loaded_raw data e.1.1)) (slider_widgets σ) →
     ∃ σ', _load_preset (S fuel) name σ = Ok (Loaded name, σ') ∧
           current_preset_name σ' = name ∧
           current_preset_position σ' = position data ∧
           Forall (λ e, ∃ q, widgets σ !! e.1.2 = Some q ∧
                             value_at σ' e.1.2
                             = Some (Qt.qBound (Qt.minimum q) (loaded_raw data e.1.1)
                                       (Qt.maximum q))) (slider_widgets σ) ∧
           (∀ b, heap σ' !! value_map b
                 = (λ d, stored_modulation σ data b ∪ d) <$> heap σ !! value_map b) ∧
           presets σ' = presets σ ∧ fs σ' = fs σ) ∧
  (∀ fuel name data σ,
     wf σ → ready σ → PyDict.get name (presets σ) = Some data →
     Exists (λ e, ¬ fits_c_int (loaded_raw data e.1.1)) (slider_widgets σ) →
     _load_preset (S fuel) name σ = Raise OverflowError).
Proof.
  split_and!.
  - apply _load_preset_absent.
  - apply _load_preset_selects.
  - apply _load_preset_overflow.
Qed.

Lemma two_presets_wf : wf two_presets.
Proof. apply (bool_decide_unpack _). by vm_compute. Qed.

Lemma two_presets_ready : ready two_presets.
Proof.
  split_and!.
  - apply (bool_decide_unpack _). by vm_compute.
  - intros []; apply (bool_decide_unpack _); by vm_compute.
  - intros ks b Hk. vm_compute in Hk. discriminate.
Qed.

Lemma two_presets_apart : sliders_apart two_presets.
Proof. split; apply (bool_decide_unpack _); by vm_compute. Qed.

Lemma two_presets_knobs : knobs two_presets = None.
Proof. reflexivity. Qed.

Lemma two_presets_A :
  PyDict.get "A" (presets two_presets)
  = Some (default (Preset "" ∅ None) (PyDict.get "A" (presets two_presets))).
Proof. by vm_compute. Qed.

Lemma two_presets_A_copies c b1 b2 :
  modulation (default (Preset "" ∅ None) (PyDict.get "A" (presets two_presets))) = Some c →
  bank_get b1 c ≠ value_map b2.
Proof. intros Hc. vm_compute in Hc. injection Hc as <-. by destruct b1, b2. Qed.

Lemma two_presets_A_fits :
  Forall (λ e, fits_c_int
                 (loaded_raw (default (Preset "" ∅ None)
                                (PyDict.get "A" (presets two_presets))) e.1.1))
    (slider_widgets two_presets).
Proof. apply (bool_decide_unpack _). by vm_compute. Qed.

Lemma load_selects_preset_witness :
  ∃ σ', _load_preset 1 "A" two_presets = Ok (Loaded "A", σ') ∧
        current_preset_name σ' = "A" ∧
        current_preset_position σ'
        = position (default (Preset "" ∅ None) (PyDict.get "A" (presets two_presets))) ∧
        Forall (λ e, ∃ q, widgets two_presets !! e.1.2 = Some q ∧
                          value_at σ' e.1.2
                          = Some (Qt.qBound (Qt.minimum q)
                                    (loaded_raw (default (Preset "" ∅ None)
                                                   (PyDict.get "A" (presets two_presets)))
                                       e.1.1)
                                    (Qt.maximum q))) (slider_widgets two_presets) ∧
        (∀ b, heap σ' !! value_map b
              = (λ d, stored_modulation two_presets
                        (default (Preset "" ∅ None) (PyDict.get "A" (presets two_presets)))
                        b ∪ d) <$> heap two_presets !! value_map b) ∧
        presets σ' = presets two_presets ∧ fs σ' = fs two_presets.
Proof.
  apply (proj1 (proj2 load_selects_preset) 0%nat "A" _ two_presets).
  - exact two_presets_wf.
  - exact two_presets_ready.
  - exact two_presets_apart.
  - exact two_presets_knobs.
  - exact two_presets_A.
  - exact two_presets_A_copies.
  - exact two_presets_A_fits.
Defined.

(** C9 as stated fails: with "B" the current preset, loading "A" makes "A"
    the current preset, at its position "1A". *)
Lemma load_changes_selection_counterexample :
  current_preset_name two_presets = "B" ∧
  observe (_load_preset 1 "A")
    (λ o σ', (o, current_preset_name σ', current_preset_position σ')) two_presets
  = Some (Loaded "A", "A", "1A").
Proof. by vm_compute. Qed.

(** A store read from a file in which the preset "X" holds 1000000000 for
    DECAY: loading "X" raises. *)
Lemma load_overflow_example :
  (SpringHallUI__init__ ;; _compose 1 ;; _load_preset 1 "X")
    (imported (FS (Some (Doc [("X", JPreset "2C" {["DECAY" := 1000000000%Q]} None)]))
                  (PerBank None None None)))
  = Raise OverflowError.
Proof. by vm_compute. Qed.

(** ** C10: a saved preset holds copies of the live value maps *)

Lemma user_changes_safe fuel cs σ :
  wf σ → Forall (λ c, is_Some (widgets σ !! c.1)) cs →
  ∃ σ', user_changes (S fuel) cs σ = Ok (tt, σ') ∧ engine_frame σ σ'.
Proof.
  intros Hwf Hcs. apply for_each_engine; [done|].
  eapply Forall_impl; [exact Hcs|]. intros c Hc σ1 Hwf1 Hf1.
  apply user_change_safe; [done|]. by apply (engine_frame_is_Some σ σ1).
Qed.

Lemma copies_not_live h b b' :
  is_Some (h !! value_map b') → bank_get b (copies h) ≠ value_map b'.
Proof.
  intros Hlive Heq. apply (copies_fresh h b). rewrite Heq. by apply elem_of_dom.
Qed.

Lemma dump_preset_ext h h' p :
  (∀ c b, modulation p = Some c → h' !! bank_get b c = h !! bank_get b c) →
  dump_preset h' p = dump_preset h p.
Proof.
  intros Heq. unfold dump_preset. f_equal.
  destruct (modulation p) as [c|]; [|done].
  pose proof (Heq c Mod eq_refl) as Hm. pose proof (Heq c Bic eq_refl) as Hb.
  pose proof (Heq c Ech eq_refl) as He. cbn [bank_get] in Hm, Hb, He.
  cbn. unfold bank_map. by rewrite Hm, Hb, He.
Qed.

(** C10.  A save into the main store records copies of the three live value
    maps: whatever the user changes afterwards, on any widgets of the
    window, the modulation values of the saved preset are the values the
    live maps had when it was saved, and the document written for it stays
    the same. *)
Theorem saved_modulation_is_a_snapshot fuel σ text cs :
  wf σ → ready σ → name_of text ≠ "" →
  PyDict.get (name_of text) (presets σ) = None →
  Forall (λ c, is_Some (widgets σ !! c.1)) cs →
  ∃ σ1 σ2 p c,
    _save_preset (Some text) σ = Ok (Saved (name_of text) (position p), σ1) ∧
    user_changes (S fuel) cs σ1 = Ok (tt, σ2) ∧
    PyDict.get (name_of text) (presets σ2) = Some p ∧
    modulation p = Some c ∧
    (∀ b, heap σ2 !! bank_get b c = heap σ !! value_map b) ∧
    (∀ b, is_Some (heap σ2 !! bank_get b c)) ∧
    dump_preset (heap σ2) p = dump_preset (heap σ1) p.
Proof.
  intros Hwf Hr Hne Hnew Hcs.
  destruct (_save_preset_new σ text Hr Hne Hnew) as (σ1&Hrun1&Hf1&Hps&Hheap&_).
  pose proof (wf_store_frame _ _ Hf1 Hwf) as Hwf1.
  destruct (user_changes_safe fuel cs σ1 Hwf1) as (σ2&Hrun2&Hf2).
  { by rewrite (sf_widgets _ _ Hf1). }
  destruct Hr as (_&Hlive&_).
  assert (∀ b, heap σ2 !! bank_get b (copies (heap σ)) = heap σ !! value_map b) as Hsnap.
  { intros b. rewrite (ef_heap _ _ Hf2).
    - rewrite Hheap. by apply heap_with_copies_new.
    - intros b'. by apply copies_not_live. }
  exists σ1, σ2,
    (Preset (_next_pos σ) (slider_values_of σ (slider_widgets σ) ∅) (Some (copies (heap σ)))),
    (copies (heap σ)).
  split_and!; [done|done| |done|done| |].
  - rewrite (ef_presets _ _ Hf2), Hps, <- (set_fresh _ _ _ Hnew). apply get_set_eq.
  - intros b. rewrite Hsnap. apply Hlive.
  - apply dump_preset_ext. intros c b [= <-].
    rewrite Hsnap, Hheap. symmetry. by apply heap_with_copies_new.
Qed.

Lemma main_window_wf : wf main_window.
Proof. apply (bool_decide_unpack _). by vm_compute. Qed.

Lemma main_window_knob_exists :
  Forall (λ c : wid * Z, is_Some (widgets main_window !! c.1)) [(18%nat, 7)].
Proof. apply (bool_decide_unpack _). by vm_compute. Qed.

Lemma main_window_new_name : PyDict.get (name_of "A") (presets main_window) = None.
Proof. by vm_compute. Qed.

Lemma name_of_A : name_of "A" ≠ "".
Proof. intros H. vm_compute in H. discriminate H. Qed.

Lemma saved_modulation_is_a_snapshot_witness :
  ∃ σ1 σ2 p c,
    _save_preset (Some "A") main_window = Ok (Saved (name_of "A") (position p), σ1) ∧
    user_changes 1 [(18%nat, 7)] σ1 = Ok (tt, σ2) ∧
    PyDict.get (name_of "A") (presets σ2) = Some p ∧
    modulation p = Some c ∧
    (∀ b, heap σ2 !! bank_get b c = heap main_window !! value_map b) ∧
    (∀ b, is_Some (heap σ2 !! bank_get b c)) ∧
    dump_preset (heap σ2) p = dump_preset (heap σ1) p.
Proof.
  apply (saved_modulation_is_a_snapshot 0 main_window "A" [(18%nat, 7)]).
  - exact main_window_wf.
  - exact main_window_ready.
  - exact name_of_A.
  - exact main_window_new_name.
  - exact main_window_knob_exists.
Defined.

(** The change of the witness does mutate the live map of the Bi-Chorus:
    its Rate goes from 0 to 7, while the saved preset keeps 0. *)
Lemma knob_change_mutates_live_map :
  observe (_save_preset (Some "A") ;; user_changes 1 [(18%nat, 7)])
    (λ _ σ', (heap σ' !! bic_value_map ≫= (.!! "Rate"),
              (PyDict.get "A" (dump_presets σ') ≫= j_modulation)
                ≫= (λ m, of_bic m !! "Rate")))
    main_window
  = Some (Some 7%Q, Some 0%Q).
Proof. by vm_compute. Qed.

(** ** C7: start-up *)

Lemma load_presets_malformed path σ :
  bank_get path (bank_preset_file (fs σ)) = Some Malformed →
  load_presets path σ = Raise JSONDecodeError.
Proof. intros H. unfold load_presets, bind, gets. by rewrite H. Qed.

Lemma load_presets_cases path σ :
  load_presets path σ = Raise JSONDecodeError ∨
  ∃ d, load_presets path σ = Ok (d, σ) ∧
       bank_get path (bank_preset_file (fs σ)) ≠ Some Malformed.
Proof.
  unfold load_presets, bind, gets.
  destruct (bank_get path (bank_preset_file (fs σ))) as [[|d]|]; [by left|right..].
  - by exists d.
  - by exists [].
Qed.

(** C7 (code bug).  The three banks are read before anything else and
    outside any handler: when the file of one bank cannot be parsed, the
    constructor of the window raises the parse error, whatever the other
    files hold; no window is built. *)
Theorem malformed_bank_file_aborts_startup disk b :
  bank_get b (bank_preset_file disk) = Some Malformed →
  SpringHallUI__init__ (imported disk) = Raise JSONDecodeError.
Proof.
  intros Hb. unfold SpringHallUI__init__.
  destruct (load_presets_cases Bic (imported disk)) as [Hr|(d1&Hr1&Hn1)];
    [by apply bind_raise|].
  rewrite (bind_ok _ _ _ _ _ Hr1).
  destruct (load_presets_cases Mod (imported disk)) as [Hr|(d2&Hr2&Hn2)];
    [by apply bind_raise|].
  rewrite (bind_ok _ _ _ _ _ Hr2).
  destruct (load_presets_cases Ech (imported disk)) as [Hr|(d3&Hr3&Hn3)];
    [by apply bind_raise|].
  exfalso. change (fs (imported disk)) with disk in Hn1, Hn2, Hn3. by destruct b.
Qed.

Lemma malformed_bank_file_aborts_startup_witness :
  SpringHallUI__init__ (imported (FS None (PerBank None (Some Malformed) None)))
  = Raise JSONDecodeError.
Proof.
  apply (malformed_bank_file_aborts_startup _ Bic). reflexivity.
Defined.

(** ** C8: renaming a preset *)

Lemma _rename_duplicate old text σ :
  strip text ≠ "" → strip text ≠ old →
  PyDict.contains (strip text) (presets σ) = true →
  _rename (Some old) (Some text) σ = Ok (DuplicateName (strip text), σ).
Proof.
  intros Hne Hold Hin. unfold _rename. rewrite decide_False by done.
  unfold bind, gets. rewrite Hin. by rewrite bool_decide_eq_true_2.
Qed.

Lemma _rename_moves old text p σ :
  strip text ≠ "" → PyDict.get old (presets σ) = Some p →
  strip text = old ∨ PyDict.get (strip text) (presets σ) = None →
  _rename (Some old) (Some text) σ
  = Ok (Renamed old (strip text),
        set_presets (λ _, PyDict.set (strip text) p (PyDict.remove old (presets σ))) σ).
Proof.
  intros Hne Hget Hfree. unfold _rename. rewrite decide_False by done.
  unfold bind at 1, gets at 1.
  assert (bool_decide (strip text ≠ old) && PyDict.contains (strip text) (presets σ)
          = false) as ->.
  { destruct Hfree as [Heq|Hnone].
    - by rewrite bool_decide_eq_false_2 by (by intros ?).
    - rewrite (proj2 (contains_false _ _) Hnone). apply andb_false_r. }
  unfold PyDict.pop. by rewrite Hget.
Qed.

(** C8 (code bug).  A rename moves the entry to the new name in memory, with
    its position and values, and the old name is gone - but nothing is
    written: the file of the store is what it was, so it still lists the
    preset under its old name. *)
Theorem rename_is_not_written σ old text p :
  PyDict.wf (presets σ) →
  strip text ≠ "" → PyDict.get old (presets σ) = Some p →
  strip text = old ∨ PyDict.get (strip text) (presets σ) = None →
  ∃ σ', _rename (Some old) (Some text) σ = Ok (Renamed old (strip text), σ') ∧
        PyDict.get (strip text) (presets σ') = Some p ∧
        (strip text ≠ old → PyDict.get old (presets σ') = None) ∧
        (∀ n, n ≠ old → n ≠ strip text →
              PyDict.get n (presets σ') = PyDict.get n (presets σ)) ∧
        PyDict.wf (presets σ') ∧
        fs σ' = fs σ ∧ stdout σ' = stdout σ.
Proof.
  intros Hwf Hne Hget Hfree. eexists. split; [by eapply _rename_moves|].
  cbn. split_and!; [| | | |done|done].
  - apply get_set_eq.
  - intros Hold. rewrite get_set_ne by done. by apply get_remove_eq.
  - intros n Hn1 Hn2. rewrite get_set_ne by done. by apply get_remove_ne.
  - by apply wf_set, wf_remove.
Qed.

Lemma two_presets_store_wf : PyDict.wf (presets two_presets).
Proof. apply (bool_decide_unpack _). by vm_compute. Qed.

Lemma strip_C : strip "C" ≠ "".
Proof. intros H. vm_compute in H. discriminate H. Qed.

Lemma two_presets_C : strip "C" = "A" ∨ PyDict.get (strip "C") (presets two_presets) = None.
Proof. right. by vm_compute. Qed.

Lemma rename_is_not_written_witness :
  ∃ σ', _rename (Some "A") (Some "C") two_presets = Ok (Renamed "A" (strip "C"), σ') ∧
        PyDict.get (strip "C") (presets σ')
        = Some (default (Preset "" ∅ None) (PyDict.get "A" (presets two_presets))) ∧
        (strip "C" ≠ "A" → PyDict.get "A" (presets σ') = None) ∧
        (∀ n, n ≠ "A" → n ≠ strip "C" →
              PyDict.get n (presets σ') = PyDict.get n (presets two_presets)) ∧
        PyDict.wf (presets σ') ∧
        fs σ' = fs two_presets ∧ stdout σ' = stdout two_presets.
Proof.
  apply (rename_is_not_written two_presets "A" "C").
  - exact two_presets_store_wf.
  - exact strip_C.
  - exact two_presets_A.
  - exact two_presets_C.
Defined.

(** With "A" and "B" stored and written, "A" is renamed to "C": the store
    holds "B" and "C", its file still "A" and "B". *)
Lemma renamed_store_differs_from_file :
  observe (_rename (Some "A") (Some "C"))
    (λ o σ', (o, PyDict.keys (presets σ'),
              match preset_file (fs σ') with
              | Some (Doc d) => Some (PyDict.keys d)
              | _ => None
              end)) two_presets
  = Some (Renamed "A" "C", ["B"; "C"], Some ["A"; "B"]).
Proof. by vm_compute. Qed.
(** * The blend surface *)

Module SoniSphereFacts.

Import Floats SoniSphere.
Local Open Scope float_scope.

(** ** Every position of the surface *)















(** ** The blend *)

Lemma calculate_blend_eq st :
  calculate_blend st
  = Blend (A (raw_blend st) / (if total (raw_blend st) =? 0 then 1 else total (raw_blend st)))
          (B (raw_blend st) / (if total (raw_blend st) =? 0 then 1 else total (raw_blend st)))
          (C (raw_blend st) / (if total (raw_blend st) =? 0 then 1 else total (raw_blend st)))
          (D (raw_blend st) / (if total (raw_blend st) =? 0 then 1 else total (raw_blend st))).
Proof. reflexivity. Qed.




End SoniSphereFacts.
